(** * ada-v2-vision-assistant: the AI session adapter and the socket gateway

    A shallow embedding of [backend/ada.py] (class [AdaAgent]) and of
    [backend/server.py] (the four socket.io event handlers), and the
    properties of the relay that follow from the code.

    The Python process is modelled by explicit state passing.  Every [await]
    of the source is one call of a primitive of the monad [M]; the remote
    endpoint (the google-genai live API) is the part of the state that the
    adapter reaches only through three library calls: opening a session,
    iterating over a session, and sending on a session.

    The library is not part of the repository, and the adapter's behaviour
    depends on how it answers: whether it builds a client for the key,
    whether it accepts the configuration when the session is opened, whether
    a session object can be iterated over, and whether a receive fails.
    These answers are a parameter, [Ada.Library]; every property is proved
    for every library, or under an explicit assumption on its answers.
    Three libraries are given in full: [genai], which answers as
    google-genai does, [not_iterable], which differs from it in accepting
    every key and configuration, and [lenient], which lets every call
    through.  A session that is
    opened keeps the arguments it was opened with; iterating over it hands
    out its inbound messages in order until it ends; [send] delivers on an
    open session and raises on a closed one.  An operation of the caller
    ([__anext__], [aclose], [send_frame], a gateway event) runs from one
    suspension of the caller to the next without other coroutines in
    between. *)

From Stdlib.Strings Require Import Byte.
From stdpp Require Import base option list strings.

(** ** Data model *)

(** A Python [bytes] object. *)
Definition bytes := list byte.

(** [types.Blob(data=..., mime_type=...)]: a media chunk. *)
Record Blob := mkBlob { data : bytes; mime_type : string }.

(** [types.LiveClientRealtimeInput(media_chunks=[...])]. *)
Record LiveClientRealtimeInput := mkInput { media_chunks : list Blob }.

(** The [config] dictionary handed to [live.connect]: keys in insertion
    order, each with a list of strings. *)
Definition Config := list (string * list string).

(** [genai.Client(api_key=..., http_options={'api_version': ...})]. *)
Record Client := mkClient { api_key : option string; api_version : string }.

(** A session object is identified by its position in the list of sessions
    the endpoint has ever accepted. *)
Abbreviation handle := nat.

(** The endpoint's view of one live session: the arguments it was opened
    with, whether it is still open, how many inbound messages its iterator
    has handed out, and the realtime inputs it has received, oldest first. *)
Record Session := mkSession {
  s_client : Client;
  s_model : string;
  s_config : Config;
  s_open : bool;
  s_cursor : nat;
  s_received : list LiveClientRealtimeInput
}.

(** The fields of an [AdaAgent] instance.  [session] is [None] or a
    reference to a session object; a session object is truthy, so the test
    [if self.session:] is the test for [Some]. *)
Record AdaAgent := mkAgent {
  client : Client;
  model_id : string;
  session : option handle
}.

(** An asynchronous generator object made by [AdaAgent.connect]: not yet
    started, suspended at [yield message] inside [async with ... as session]
    (it then holds the local [session]), or finished. *)
Inductive agen := AGenCreated | AGenSuspended (s : handle) | AGenClosed.

(** The exceptions of the model.  [StopAsyncIteration] ends an asynchronous
    iteration; [ConnectionClosed] is what the library's [send] raises on a
    session that is no longer open; [NameError] answers a reference to a
    generator object that was never created; [ValueError] is the library's
    answer to a missing API key, [ValidationError] its answer to a
    configuration it does not accept, and [TypeError] Python's answer to
    [async for] over an object that has no [__aiter__]. *)
Inductive exn :=
| StopAsyncIteration
| ConnectionClosed
| NameError
| ValueError
| ValidationError
| TypeError.

Inductive result (A : Type) := Ok (a : A) | Raise (e : exn).
Arguments Ok {A} a.
Arguments Raise {A} e.

(** The process: the adapter instance, the endpoint's sessions, the
    generator objects created so far, and the lines printed on stdout. *)
Record Proc := mkProc {
  agent : AdaAgent;
  sessions : list Session;
  gens : list agen;
  stdout : list string
}.

Definition with_agent (a : AdaAgent) (p : Proc) : Proc :=
  mkProc a (sessions p) (gens p) (stdout p).

Definition with_sessions (ss : list Session) (p : Proc) : Proc :=
  mkProc (agent p) ss (gens p) (stdout p).

Definition with_gens (gs : list agen) (p : Proc) : Proc :=
  mkProc (agent p) (sessions p) gs (stdout p).

Definition with_stdout (out : list string) (p : Proc) : Proc :=
  mkProc (agent p) (sessions p) (gens p) out.

(** ** The state and exception monad *)

Definition M (A : Type) : Type := Proc → result A * Proc.

Definition ret {A} (a : A) : M A := λ p, (Ok a, p).

Definition raise {A} (e : exn) : M A := λ p, (Raise e, p).

Definition bind {A B} (c : M A) (k : A → M B) : M B :=
  λ p, match c p with
       | (Ok a, p') => k a p'
       | (Raise e, p') => (Raise e, p')
       end.

Notation "x <- c ;; k" := (bind c (λ x, k))
  (at level 20, c at level 99, k at level 200, only parsing).
Notation "c ;; k" := (bind c (λ _, k))
  (at level 100, k at level 200, right associativity, only parsing).

(** [try: c except Exception as e: h e]. *)
Definition catch {A} (c : M A) (h : exn → M A) : M A :=
  λ p, match c p with
       | (Ok a, p') => (Ok a, p')
       | (Raise e, p') => h e p'
       end.

(** The state a computation leaves behind, and its outcome. *)
Definition exec {A} (c : M A) (p : Proc) : Proc := snd (c p).
Definition outcome {A} (c : M A) (p : Proc) : result A := fst (c p).

(** [print(line)]. *)
Definition print (line : string) : M unit :=
  λ p, (Ok tt, with_stdout (stdout p ++ [line]) p).

(** ** The handlers of the socket gateway ([backend/server.py]) *)

Module Server.

(** The WSGI-style environment dictionary of a new connection. *)
Definition Environ := list (string * string).

(** [async def connect(sid, environ)]. *)
Definition connect (sid : string) (environ : Environ) : M unit :=
  print ("Neural Link Established: " +:+ sid).

(** [async def disconnect(sid)]. *)
Definition disconnect (sid : string) : M unit :=
  print ("Neural Link Severed: " +:+ sid).

(** [async def vision_frame(sid, data)]: the body is [pass]. *)
Definition vision_frame {D : Type} (sid : string) (data : D) : M unit :=
  ret tt.

(** [async def voice_input(sid, data)]: the body is [pass]. *)
Definition voice_input {D : Type} (sid : string) (data : D) : M unit :=
  ret tt.

(** The named events socket.io dispatches to the handlers above. *)
Inductive event (D : Type) :=
| EvConnect (sid : string) (environ : Environ)
| EvDisconnect (sid : string)
| EvVisionFrame (sid : string) (data : D)
| EvVoiceInput (sid : string) (data : D).
Arguments EvConnect {D} sid environ.
Arguments EvDisconnect {D} sid.
Arguments EvVisionFrame {D} sid data.
Arguments EvVoiceInput {D} sid data.

Definition dispatch {D : Type} (e : event D) : M unit :=
  match e with
  | EvConnect sid environ => connect sid environ
  | EvDisconnect sid => disconnect sid
  | EvVisionFrame sid data => vision_frame sid data
  | EvVoiceInput sid data => voice_input sid data
  end.

(** The gateway handling a sequence of events, each on its own. *)
Definition serve {D : Type} (es : list (event D)) (p : Proc) : Proc :=
  foldl (λ q e, exec (dispatch e) q) p es.

(** What the events leave on stdout. *)
Definition log_line {D : Type} (e : event D) : list string :=
  match e with
  | EvConnect sid _ => ["Neural Link Established: " +:+ sid]
  | EvDisconnect sid => ["Neural Link Severed: " +:+ sid]
  | EvVisionFrame _ _ => []
  | EvVoiceInput _ _ => []
  end.

End Server.

(** ** The AI session adapter ([backend/ada.py]) *)

Module Ada.

(** The google-genai library as far as the adapter meets it: for each call
    of the adapter into the library, whether the call returns ([None]) or
    what it raises. *)
Record Library := mkLibrary {
  (** [genai.Client(api_key=key, http_options=...)] *)
  new_client : option string → option exn;
  (** entering [client.aio.live.connect(model=..., config=...)] *)
  enter_live : Client → string → Config → option exn;
  (** [async for ... in session], before the first item is asked for *)
  aiter_session : option exn;
  (** asking session [s] for its [n]-th item *)
  recv_fault : handle → nat → option exn
}.

(** The fields [__init__] assigns once [genai.Client] has returned. *)
Definition built (key : option string) : AdaAgent :=
  {| client := {| api_key := key; api_version := "v1alpha" |};
     model_id := "gemini-2.0-flash-exp";
     session := None |}.

(** A process whose adapter has just been built. *)
Definition boot (key : option string) : Proc :=
  {| agent := built key; sessions := []; gens := []; stdout := [] |}.

Definition get_self : M AdaAgent := λ p, (Ok (agent p), p).

(** [self.session = s]. *)
Definition set_session (s : option handle) : M unit :=
  λ p, (Ok tt, with_agent (mkAgent (client (agent p)) (model_id (agent p)) s) p).

Definition get_gen (g : nat) : M (option agen) := λ p, (Ok (gens p !! g), p).

Definition set_gen (g : nat) (st : agen) : M unit :=
  λ p, (Ok tt, with_gens (<[g := st]> (gens p)) p).

(** *** The library calls *)

(** Leaving the [async with] block closes the session. *)
Definition live_exit (s : handle) : M unit :=
  λ p, match sessions p !! s with
       | Some r =>
           (Ok tt,
            with_sessions
              (<[s := mkSession (s_client r) (s_model r) (s_config r) false
                        (s_cursor r) (s_received r)]> (sessions p)) p)
       | None => (Ok tt, p)
       end.

(** [await session.send(input=...)]: an open session receives the input;
    on a closed one the library raises. *)
Definition session_send (s : handle) (input : LiveClientRealtimeInput) : M unit :=
  λ p, match sessions p !! s with
       | Some r =>
           if s_open r then
             (Ok tt,
              with_sessions
                (<[s := mkSession (s_client r) (s_model r) (s_config r) true
                          (s_cursor r) (s_received r ++ [input])]> (sessions p)) p)
           else (Raise ConnectionClosed, p)
       | None => (Raise ConnectionClosed, p)
       end.

(** *** [AdaAgent.send_frame] *)

Definition send_frame (frame_data : bytes) : M unit :=
  self <- get_self ;;
  match session self with
  | Some s =>
      session_send s
        (mkInput [mkBlob frame_data "image/jpeg"])
  | None => ret tt
  end.

Section Inbound.

(** How the library answers. *)
Variable lib : Library.

(** The messages are of unspecified shape. *)
Context {Message : Type}.

(** What the remote end produces: [inbound s n] is the [n]-th message
    of session [s], or [None] when the session ends before it. *)
Variable inbound : handle → nat → option Message.

(** [AdaAgent.__init__]; the argument is [os.getenv("GEMINI_API_KEY")].
    When [genai.Client] raises, so does [__init__], and there is no
    adapter. *)
Definition init (key : option string) : result AdaAgent :=
  match new_client lib key with
  | Some e => Raise e
  | None => Ok (built key)
  end.

(** Entering [client.aio.live.connect(model=..., config=...)]: the library
    raises, or the endpoint has a new session, opened with exactly these
    arguments. *)
Definition live_connect (c : Client) (model : string) (config : Config) : M handle :=
  λ p, match enter_live lib c model config with
       | Some e => (Raise e, p)
       | None =>
           (Ok (length (sessions p)),
            with_sessions (sessions p ++ [mkSession c model config true 0 []]) p)
       end.

(** What [async for ... in session] does first: it asks the session object
    for an asynchronous iterator. *)
Definition session_aiter (s : handle) : M unit :=
  λ p, match aiter_session lib with
       | Some e => (Raise e, p)
       | None => (Ok tt, p)
       end.

(** One step of [async for message in session]: the next message, [None]
    when the iteration is over, or the exception of a receive that fails. *)
Definition session_anext (s : handle) : M (option Message) :=
  λ p, match sessions p !! s with
       | Some r =>
           if s_open r then
             match recv_fault lib s (s_cursor r) with
             | Some e => (Raise e, p)
             | None =>
                 match inbound s (s_cursor r) with
                 | Some m =>
                     (Ok (Some m),
                      with_sessions
                        (<[s := mkSession (s_client r) (s_model r) (s_config r) true
                                  (S (s_cursor r)) (s_received r)]> (sessions p)) p)
                 | None => (Ok None, p)
                 end
             end
           else (Ok None, p)
       | None => (Ok None, p)
       end.

(** *** [AdaAgent.connect] *)

(** [async with ... as session: body]: whatever ends the body, the end of
    the loop or an exception, closes the session on the way out. *)
Definition async_with {A} (session : handle) (body : M A) : M A :=
  catch body (λ e, live_exit session ;; raise e).

(** The body of generator [g]: what ends it, the end of the function or an
    exception, leaves the generator finished. *)
Definition agen_body {A} (g : nat) (body : M A) : M A :=
  catch body (λ e, set_gen g AGenClosed ;; raise e).

(** Lines 19-20, one turn of the loop: to the next [yield], or out of the
    loop; the end of the function is [StopAsyncIteration] for the caller. *)
Definition connect_loop (g : nat) (session : handle) : M Message :=
  next <- session_anext session ;;
  match next with
  | Some message => set_gen g (AGenSuspended session) ;; ret message
  | None => raise StopAsyncIteration
  end.

(** The generator resumed after its [yield], inside the [async with] block. *)
Definition connect_resume (g : nat) (session : handle) : M Message :=
  agen_body g (async_with session (connect_loop g session)).

(** Lines 17-20, for a given value of the local [config]. *)
Definition connect_body (config : Config) (g : nat) : M Message :=
  agen_body g
    (self <- get_self ;;
     session <- live_connect (client self) (model_id self) config ;;
     async_with session
       (set_session (Some session) ;;
        session_aiter session ;;
        connect_loop g session)).

(** Line 16. *)
Definition registration_config : Config :=
  [("registration_ids", ["vision"; "audio"])].

(** Lines 16-20: the body of the generator, run from its start. *)
Definition connect_start (g : nat) : M Message :=
  let config := registration_config in
  connect_body config g.

(** Calling [agent.connect()] runs none of the body: it makes a new
    generator object and returns it. *)
Definition connect : M nat :=
  λ p, (Ok (length (gens p)), with_gens (gens p ++ [AGenCreated]) p).

(** [await g.__anext__()], what [async for ... in agent.connect()] does
    for each item. *)
Definition anext (g : nat) : M Message :=
  st <- get_gen g ;;
  match st with
  | Some AGenCreated => connect_start g
  | Some (AGenSuspended session) => connect_resume g session
  | Some AGenClosed => raise StopAsyncIteration
  | None => raise NameError
  end.

(** [await g.aclose()]: [GeneratorExit] is thrown at the [yield], which
    leaves the [async with] block. *)
Definition aclose (g : nat) : M unit :=
  st <- get_gen g ;;
  match st with
  | Some AGenCreated => set_gen g AGenClosed
  | Some (AGenSuspended session) => live_exit session ;; set_gen g AGenClosed
  | Some AGenClosed => ret tt
  | None => raise NameError
  end.

(** *** Driving the adapter *)

(** What a caller can do with one adapter instance. *)
Inductive op :=
| OpConnect
| OpAnext (g : nat)
| OpAclose (g : nat)
| OpSendFrame (frame_data : bytes).

(** One operation; the caller goes on whatever the outcome was. *)
Definition step (o : op) (p : Proc) : Proc :=
  match o with
  | OpConnect => exec connect p
  | OpAnext g => exec (anext g) p
  | OpAclose g => exec (aclose g) p
  | OpSendFrame frame_data => exec (send_frame frame_data) p
  end.

Definition run (os : list op) (p : Proc) : Proc := foldl (λ q o, step o q) p os.

(** [k] successive [__anext__] calls on generator [g]: the outcomes in
    order, and the final state. *)
Fixpoint pull (k : nat) (g : nat) (p : Proc) : list (result Message) * Proc :=
  match k with
  | 0 => ([], p)
  | S k' =>
      let '(r, p') := anext g p in
      let '(rs, p'') := pull k' g p' in
      (r :: rs, p'')
  end.

(** The first messages of session [s] from position [c] on, at most
    [k] of them, up to the point where the session ends. *)
Fixpoint feed_from (s : handle) (c k : nat) : list Message :=
  match k with
  | 0 => []
  | S k' =>
      match inbound s c with
      | Some m => m :: feed_from s (S c) k'
      | None => []
      end
  end.

(** What turn [n] of the loop over session [s] comes to: a message to
    yield, or the exception that ends the generator. *)
Definition turn (s : handle) (n : nat) : result Message :=
  match recv_fault lib s n with
  | Some e => Raise e
  | None =>
      match inbound s n with
      | Some m => Ok m
      | None => Raise StopAsyncIteration
      end
  end.

(** The same for line 19 reached for the first time. *)
Definition first_turn (s : handle) : result Message :=
  match aiter_session lib with
  | Some e => Raise e
  | None => turn s 0
  end.

End Inbound.

End Ada.

(** ** Observations on a process *)

(** The handles of the sessions that are open, counted from [n]. *)
Fixpoint open_from (n : nat) (ss : list Session) : list handle :=
  match ss with
  | [] => []
  | r :: ss' => if s_open r then n :: open_from (S n) ss' else open_from (S n) ss'
  end.

Definition open_handles (p : Proc) : list handle := open_from 0 (sessions p).

(** The sessions held by generators suspended at their [yield]. *)
Definition held (st : agen) : option handle :=
  match st with AGenSuspended s => Some s | _ => None end.

Definition held_handles (p : Proc) : list handle := omap held (gens p).

(** Whether the handle refers to a session that is open. *)
Definition is_open (s : handle) (p : Proc) : bool :=
  match sessions p !! s with Some r => s_open r | None => false end.

(** Every media chunk session [s] has received, oldest first. *)
Definition chunks_received (s : handle) (p : Proc) : list Blob :=
  match sessions p !! s with
  | Some r => concat (media_chunks <$> s_received r)
  | None => []
  end.

(** Every realtime input the process has transmitted, session by session. *)
Definition transmitted (p : Proc) : list (list LiveClientRealtimeInput) :=
  s_received <$> sessions p.

(** The state of a session [k] pulls later, [n] of which found a message:
    still open after [n = k] of them, closed when the feed ended first. *)
Definition advanced (r : Session) (n k : nat) : Session :=
  mkSession (s_client r) (s_model r) (s_config r) (bool_decide (n = k))
    (s_cursor r + n) (s_received r).

(** Where the generator rests after those pulls. *)
Definition resting (s : handle) (n k : nat) : agen :=
  if bool_decide (n = k) then AGenSuspended s else AGenClosed.

(** A session, and a process, seen without the configurations the sessions
    were opened with. *)
Definition forget_session (r : Session) : Session :=
  mkSession (s_client r) (s_model r) [] (s_open r) (s_cursor r) (s_received r).

Definition forget_config (p : Proc) : Proc :=
  with_sessions (forget_session <$> sessions p) p.

(** Every open session is the one some suspended generator holds, and no
    two generators hold the same one. *)
Definition owned (p : Proc) : Prop := held_handles p ≡ₚ open_handles p.

(** How many times a sequence of operations calls [connect()]. *)
Fixpoint connect_calls (os : list Ada.op) : nat :=
  match os with
  | [] => 0
  | Ada.OpConnect :: os' => S (connect_calls os')
  | _ :: os' => connect_calls os'
  end.

(** Whether an operation advances a generator. *)
Definition is_anext (o : Ada.op) : bool :=
  match o with Ada.OpAnext _ => true | _ => false end.

(** The handle of the session opened last, if any was. *)
Definition latest (ss : list Session) : option handle :=
  match length ss with 0 => None | S n => Some n end.

(** How a session can differ later from what it is now: it keeps what it
    was opened with, its iterator has not gone back, what it had received
    is still the head of what it has received, and it has not reopened. *)
Definition evolves (r r' : Session) : Prop :=
  s_client r' = s_client r
  ∧ s_model r' = s_model r
  ∧ s_config r' = s_config r
  ∧ s_cursor r ≤ s_cursor r'
  ∧ s_received r `prefix_of` s_received r'
  ∧ (s_open r = false → s_open r' = false).

(** When two gateway events cannot be told apart: both are lifecycle
    events of the same kind for the same session id, or both are frame or
    voice events. *)
Definition same_trace {D : Type} (e e' : Server.event D) : Prop :=
  match e, e' with
  | Server.EvConnect sid _, Server.EvConnect sid' _ => sid = sid'
  | Server.EvDisconnect sid, Server.EvDisconnect sid' => sid = sid'
  | Server.EvConnect _ _, _ | Server.EvDisconnect _, _ => False
  | _, Server.EvConnect _ _ | _, Server.EvDisconnect _ => False
  | _, _ => True
  end.

(** What one operation can do to a session: hand out its next message,
    close it, or deliver an input to it. *)
Inductive touched (r : Session) : Session → Prop :=
| touched_read :
    s_open r = true →
    touched r (mkSession (s_client r) (s_model r) (s_config r) true
                 (S (s_cursor r)) (s_received r))
| touched_closed :
    touched r (mkSession (s_client r) (s_model r) (s_config r) false
                 (s_cursor r) (s_received r))
| touched_sent (input : LiveClientRealtimeInput) :
    s_open r = true →
    touched r (mkSession (s_client r) (s_model r) (s_config r) true
                 (s_cursor r) (s_received r ++ [input])).

(** What one operation on the adapter can do to the process: change the
    generators only, touch one session, or open a new session with the
    adapter's client and model id and store its handle in the adapter. *)
Inductive stepped (p : Proc) : Proc → Prop :=
| stepped_gens (gs : list agen) :
    stepped p (mkProc (agent p) (sessions p) gs (stdout p))
| stepped_touch (s : handle) (r r' : Session) (gs : list agen) :
    sessions p !! s = Some r →
    touched r r' →
    stepped p (mkProc (agent p) (<[s := r']> (sessions p)) gs (stdout p))
| stepped_open (o : bool) (c : nat) (gs : list agen) :
    stepped p
      (mkProc (mkAgent (client (agent p)) (model_id (agent p))
                 (Some (length (sessions p))))
         (sessions p ++
            [mkSession (client (agent p)) (model_id (agent p))
               Ada.registration_config o c []])
         gs (stdout p)).

(** The sessions of [p] were all opened by its adapter as it is now. *)
Definition opened_by_agent (p : Proc) : Prop :=
  Forall (λ r, s_client r = client (agent p)
               ∧ s_model r = model_id (agent p)
               ∧ s_config r = Ada.registration_config) (sessions p).

(** Generator [g] at rest with the adapter holding its session [s]:
    suspended at its [yield] with the session open, or finished with the
    session closed. *)
Definition at_rest (g : nat) (s : handle) (q : Proc) : Prop :=
  session (agent q) = Some s
  ∧ (gens q !! g = Some (AGenSuspended s) ∧ is_open s q = true
     ∨ gens q !! g = Some AGenClosed ∧ is_open s q = false).

(** ** Concrete inputs for the examples *)

(** The first two bytes of a JPEG file, [b"\xff\xd8"]. *)
Definition jpeg_soi : bytes := [xff; xd8].

(** A remote end that sends two messages on every session and then ends it. *)
Definition two_messages (s : handle) (n : nat) : option string :=
  match n with
  | 0 => Some "hello"
  | 1 => Some "world"
  | _ => None
  end.

(** A remote end that never stops talking. *)
Definition chatty (s : handle) (n : nat) : option string := Some "tick".

(** A library that lets every call through. *)
Definition lenient : Ada.Library :=
  {| Ada.new_client := λ _, None;
     Ada.enter_live := λ _ _ _, None;
     Ada.aiter_session := None;
     Ada.recv_fault := λ _ _, None |}.

(** Whether a configuration has an entry for the key. *)
Definition mentions (config : Config) (k : string) : bool :=
  existsb (String.eqb k) config.*1.

(** The library as google-genai answers this adapter, with no other key in
    the environment: [genai.Client] raises [ValueError] for a missing or
    empty key; entering [live.connect] raises a validation error for a
    configuration with the key [registration_ids], which the library's
    configuration type does not declare; a session object has no
    [__aiter__], so [async for] over it raises [TypeError]. *)
Definition genai : Ada.Library :=
  {| Ada.new_client := λ key,
       match key with
       | None => Some ValueError
       | Some k => if String.eqb k "" then Some ValueError else None
       end;
     Ada.enter_live := λ _ _ config,
       if mentions config "registration_ids" then Some ValidationError else None;
     Ada.aiter_session := Some TypeError;
     Ada.recv_fault := λ _ _, None |}.

(** A library that accepts every key and every configuration, but whose
    session objects have no [__aiter__]. *)
Definition not_iterable : Ada.Library :=
  {| Ada.new_client := λ _, None;
     Ada.enter_live := λ _ _ _, None;
     Ada.aiter_session := Some TypeError;
     Ada.recv_fault := λ _ _, None |}.

(** A process whose adapter holds an open session. *)
Definition connected : Proc :=
  snd (Ada.pull lenient two_messages 1 0 (exec Ada.connect (Ada.boot (Some "k")))).

(** * Properties *)

(** ** [send_frame] *)

Example connected_state :
  connected =
  {| agent := mkAgent (mkClient (Some "k") "v1alpha") "gemini-2.0-flash-exp" (Some 0);
     sessions := [mkSession (mkClient (Some "k") "v1alpha") "gemini-2.0-flash-exp"
                    [("registration_ids", ["vision"; "audio"])] true 1 []];
     gens := [AGenSuspended 0];
     stdout := [] |}.
Proof. reflexivity. Qed.

Example send_frame_connected :
  transmitted (exec (Ada.send_frame jpeg_soi) connected)
  = [[mkInput [mkBlob [xff; xd8] "image/jpeg"]]].
Proof. reflexivity. Qed.

Lemma send_frame_some frame_data p s :
  session (agent p) = Some s →
  Ada.send_frame frame_data p
  = Ada.session_send s (mkInput [mkBlob frame_data "image/jpeg"]) p.
Proof. intros Hs. unfold Ada.send_frame, bind, Ada.get_self. by rewrite Hs. Qed.

Lemma send_frame_none frame_data p :
  session (agent p) = None → Ada.send_frame frame_data p = (Ok tt, p).
Proof. intros Hs. unfold Ada.send_frame, bind, Ada.get_self. by rewrite Hs. Qed.

Lemma session_send_agent s input p :
  agent (exec (Ada.session_send s input) p) = agent p.
Proof.
  unfold exec, Ada.session_send.
  destruct (sessions p !! s) as [r|]; [destruct (s_open r)|]; done.
Qed.

(** C1.  When the adapter holds a session [s] and that session is open,
    [send_frame frame_data] returns normally and session [s] receives one
    more realtime input, which carries exactly one media chunk: the bytes
    [frame_data] as they were given, tagged [image/jpeg].  No other session
    receives anything and nothing else in the process changes. *)
Theorem send_frame_transmits_one_jpeg_chunk
    (frame_data : bytes) (p : Proc) (s : handle) (r : Session) :
  session (agent p) = Some s →
  sessions p !! s = Some r →
  s_open r = true →
  outcome (Ada.send_frame frame_data) p = Ok tt
  ∧ (∃ r', sessions (exec (Ada.send_frame frame_data) p) !! s = Some r'
           ∧ s_received r' = s_received r ++ [mkInput [mkBlob frame_data "image/jpeg"]])
  ∧ chunks_received s (exec (Ada.send_frame frame_data) p)
    = chunks_received s p ++ [mkBlob frame_data "image/jpeg"]
  ∧ (∀ s', s' ≠ s → sessions (exec (Ada.send_frame frame_data) p) !! s' = sessions p !! s')
  ∧ length (sessions (exec (Ada.send_frame frame_data) p)) = length (sessions p)
  ∧ gens (exec (Ada.send_frame frame_data) p) = gens p
  ∧ stdout (exec (Ada.send_frame frame_data) p) = stdout p.
Proof.
  intros Hs Hr Ho.
  assert (Hlt : s < length (sessions p)) by (by eapply lookup_lt_Some).
  unfold outcome, exec, chunks_received.
  rewrite (send_frame_some _ _ _ Hs). unfold Ada.session_send.
  rewrite Hr, Ho. cbn.
  rewrite list_lookup_insert_eq by done.
  repeat split.
  - eexists. split; [done|]. done.
  - cbn. rewrite fmap_app, concat_app. cbn. done.
  - intros s' Hne. by rewrite list_lookup_insert_ne.
  - by rewrite length_insert.
Qed.

Lemma send_frame_transmits_one_jpeg_chunk_witness :
  outcome (Ada.send_frame jpeg_soi) connected = Ok tt
  ∧ chunks_received 0 (exec (Ada.send_frame jpeg_soi) connected)
    = chunks_received 0 connected ++ [mkBlob jpeg_soi "image/jpeg"].
Proof.
  pose proof (send_frame_transmits_one_jpeg_chunk jpeg_soi connected 0
    (mkSession (mkClient (Some "k") "v1alpha") "gemini-2.0-flash-exp"
       [("registration_ids", ["vision"; "audio"])] true 1 [])
    eq_refl eq_refl eq_refl) as (H1 & _ & H3 & _).
  exact (conj H1 H3).
Defined.

(** C2.  When the adapter holds no session, [send_frame frame_data] returns
    normally, raises nothing, and leaves the whole process as it was: no
    session receives anything. *)
Theorem send_frame_without_session_is_noop (frame_data : bytes) (p : Proc) :
  session (agent p) = None →
  outcome (Ada.send_frame frame_data) p = Ok tt
  ∧ exec (Ada.send_frame frame_data) p = p
  ∧ transmitted (exec (Ada.send_frame frame_data) p) = transmitted p.
Proof.
  intros Hs. unfold outcome, exec. rewrite (send_frame_none _ _ Hs). done.
Qed.

Lemma send_frame_without_session_is_noop_witness :
  outcome (Ada.send_frame jpeg_soi) (Ada.boot None) = Ok tt
  ∧ exec (Ada.send_frame jpeg_soi) (Ada.boot None) = Ada.boot None
  ∧ transmitted (exec (Ada.send_frame jpeg_soi) (Ada.boot None))
    = transmitted (Ada.boot None).
Proof. apply (send_frame_without_session_is_noop jpeg_soi (Ada.boot None)). reflexivity. Defined.

(** C10.  [send_frame] never writes to the adapter: after the call, whether
    it transmitted, did nothing or raised, the fields [client], [model_id]
    and [session] hold the values they held before. *)
Theorem send_frame_preserves_agent (frame_data : bytes) (p : Proc) :
  client (agent (exec (Ada.send_frame frame_data) p)) = client (agent p)
  ∧ model_id (agent (exec (Ada.send_frame frame_data) p)) = model_id (agent p)
  ∧ session (agent (exec (Ada.send_frame frame_data) p)) = session (agent p).
Proof.
  assert (H : agent (exec (Ada.send_frame frame_data) p) = agent p).
  { destruct (session (agent p)) as [s|] eqn:Hs.
    - unfold exec. rewrite (send_frame_some _ _ _ Hs). apply session_send_agent.
    - unfold exec. by rewrite (send_frame_none _ _ Hs). }
  by rewrite H.
Qed.

(** ** The gateway handlers *)

Example gateway_lifecycle_log :
  stdout (exec (Server.connect "abc" [] ;; Server.disconnect "abc") (Ada.boot None))
  = ["Neural Link Established: abc"; "Neural Link Severed: abc"].
Proof. reflexivity. Qed.

(** Whatever events arrive, the gateway only writes its log. *)
Lemma serve_only_logs {D : Type} (es : list (Server.event D)) : ∀ p,
  Server.serve es p = with_stdout (stdout p ++ concat (Server.log_line <$> es)) p.
Proof.
  induction es as [|e es IH]; intros p.
  - cbn. rewrite app_nil_r. by destruct p.
  - change (Server.serve (e :: es) p)
      with (Server.serve es (exec (Server.dispatch e) p)).
    rewrite IH. destruct e; cbn; unfold with_stdout; cbn;
      by rewrite <- ?app_assoc.
Qed.

(** The scenario of a client that connects, sends one frame and leaves:
    two log lines, nothing forwarded. *)
Example one_frame_lifecycle :
  Server.serve
    [Server.EvConnect "abc" []; Server.EvVisionFrame "abc" jpeg_soi;
     Server.EvDisconnect "abc"] connected
  = with_stdout ["Neural Link Established: abc"; "Neural Link Severed: abc"] connected.
Proof. reflexivity. Qed.

(** C4.  [vision_frame] and [voice_input] do nothing: for every session id
    and every payload, of any type, they return normally and the process is
    left exactly as it was (no adapter operation, nothing transmitted,
    nothing printed), and the payload does not enter the result. *)
Theorem frame_and_voice_handlers_are_noops
    (D : Type) (sid : string) (data data' : D) (p : Proc) :
  Server.vision_frame sid data p = (Ok tt, p)
  ∧ Server.voice_input sid data p = (Ok tt, p)
  ∧ Server.vision_frame sid data p = Server.vision_frame sid data' p
  ∧ Server.voice_input sid data p = Server.voice_input sid data' p.
Proof. done. Qed.

(** C7.  The gateway's [connect] handler prints one line, naming the
    session id, and changes nothing else; [disconnect] likewise prints one
    line and changes nothing else: in particular it closes no AI session.
    After either handler stdout is what it was, followed by that one line. *)
Theorem lifecycle_handlers_only_log
    (sid : string) (environ : Server.Environ) (p : Proc) :
  Server.connect sid environ p
  = (Ok tt, with_stdout (stdout p ++ ["Neural Link Established: " +:+ sid]) p)
  ∧ Server.disconnect sid p
    = (Ok tt, with_stdout (stdout p ++ ["Neural Link Severed: " +:+ sid]) p)
  ∧ stdout (exec (Server.connect sid environ) p)
    = stdout p ++ ["Neural Link Established: " +:+ sid]
  ∧ stdout (exec (Server.disconnect sid) p)
    = stdout p ++ ["Neural Link Severed: " +:+ sid]
  ∧ length (stdout (exec (Server.connect sid environ) p)) = S (length (stdout p))
  ∧ length (stdout (exec (Server.disconnect sid) p)) = S (length (stdout p))
  ∧ outcome (Server.connect sid environ) p = Ok tt
  ∧ outcome (Server.disconnect sid) p = Ok tt
  ∧ agent (exec (Server.connect sid environ) p) = agent p
  ∧ sessions (exec (Server.connect sid environ) p) = sessions p
  ∧ gens (exec (Server.connect sid environ) p) = gens p
  ∧ agent (exec (Server.disconnect sid) p) = agent p
  ∧ sessions (exec (Server.disconnect sid) p) = sessions p
  ∧ gens (exec (Server.disconnect sid) p) = gens p.
Proof.
  repeat split; unfold exec; cbn; rewrite length_app; cbn; lia.
Qed.

(** C8.  A gateway [connect] followed at once by [disconnect] opens no AI
    session: the sessions of the process, and so the open ones, are what
    they were before the pair; in a process that has just started there is
    no open AI session afterwards. *)
Theorem connect_disconnect_leaks_no_session
    (sid : string) (environ : Server.Environ) (p : Proc) (key : option string) :
  sessions (exec (Server.connect sid environ ;; Server.disconnect sid) p) = sessions p
  ∧ open_handles (exec (Server.connect sid environ ;; Server.disconnect sid) p)
    = open_handles p
  ∧ open_handles (exec (Server.connect sid environ ;; Server.disconnect sid) (Ada.boot key))
    = [].
Proof. done. Qed.

(** ** The generator made by [AdaAgent.connect] *)

(** With a library that lets every call through, the generator hands out
    the messages of the session and then ends. *)
Example pull_two_messages :
  fst (Ada.pull lenient two_messages 4 0 (exec Ada.connect (Ada.boot None)))
  = [Ok "hello"; Ok "world"; Raise StopAsyncIteration; Raise StopAsyncIteration].
Proof. reflexivity. Qed.

Example pull_two_messages_state :
  snd (Ada.pull lenient two_messages 4 0 (exec Ada.connect (Ada.boot None)))
  = {| agent := mkAgent (mkClient None "v1alpha") "gemini-2.0-flash-exp" (Some 0);
       sessions := [mkSession (mkClient None "v1alpha") "gemini-2.0-flash-exp"
                      [("registration_ids", ["vision"; "audio"])] false 2 []];
       gens := [AGenClosed];
       stdout := [] |}.
Proof. reflexivity. Qed.

(** With the library as it answers, line 17 raises: no session, no handle. *)
Example pull_genai_state :
  Ada.pull genai two_messages 2 0 (exec Ada.connect (Ada.boot (Some "k")))
  = ([Raise ValidationError; Raise StopAsyncIteration],
     {| agent := mkAgent (mkClient (Some "k") "v1alpha") "gemini-2.0-flash-exp" None;
        sessions := [];
        gens := [AGenClosed];
        stdout := [] |}).
Proof. reflexivity. Qed.

Section Stream.

Variable lib : Ada.Library.
Context {Message : Type}.
Variable inbound : handle → nat → option Message.

Local Abbreviation anext := (Ada.anext lib inbound).
Local Abbreviation pull := (Ada.pull lib inbound).
Local Abbreviation feed_from := (Ada.feed_from inbound).
Local Abbreviation turn := (Ada.turn lib inbound).
Local Abbreviation first_turn := (Ada.first_turn lib inbound).
Local Abbreviation connect_resume := (Ada.connect_resume lib inbound).
Local Abbreviation connect_body := (Ada.connect_body lib inbound).
Local Abbreviation connect_start := (Ada.connect_start lib inbound).
Local Abbreviation step := (Ada.step lib inbound).
Local Abbreviation run := (Ada.run lib inbound).

Lemma insert_last {A} (l : list A) (x y : A) :
  <[length l := x]> (l ++ [y]) = l ++ [x].
Proof.
  pose proof (insert_app_r l [y] 0 x) as H. by rewrite Nat.add_0_r in H.
Qed.

Lemma lookup_last {A} (l : list A) (y : A) : (l ++ [y]) !! length l = Some y.
Proof. rewrite lookup_app_r by done. by rewrite Nat.sub_diag. Qed.

(** The generator resumed after its [yield]: it yields the next message and
    stays suspended, or it is finished and its session closed. *)
Lemma connect_resume_eq g s p :
  connect_resume g s p =
  match sessions p !! s with
  | Some r =>
      match (if s_open r then turn s (s_cursor r) else Raise StopAsyncIteration) with
      | Ok m =>
          (Ok m,
           mkProc (agent p)
             (<[s := mkSession (s_client r) (s_model r) (s_config r) true
                       (S (s_cursor r)) (s_received r)]> (sessions p))
             (<[g := AGenSuspended s]> (gens p)) (stdout p))
      | Raise e =>
          (Raise e,
           mkProc (agent p)
             (<[s := mkSession (s_client r) (s_model r) (s_config r) false
                       (s_cursor r) (s_received r)]> (sessions p))
             (<[g := AGenClosed]> (gens p)) (stdout p))
      end
  | None =>
      (Raise StopAsyncIteration,
       mkProc (agent p) (sessions p) (<[g := AGenClosed]> (gens p)) (stdout p))
  end.
Proof.
  unfold Ada.connect_resume, Ada.agen_body, Ada.async_with, catch,
    Ada.connect_loop, bind, Ada.session_anext, Ada.live_exit, Ada.set_gen,
    Ada.turn, raise, ret.
  destruct (sessions p !! s) as [r|] eqn:Hr; cbn; [|rewrite Hr; reflexivity].
  destruct (s_open r); cbn; [|rewrite Hr; reflexivity].
  destruct (Ada.recv_fault lib s (s_cursor r)); cbn; [rewrite Hr; reflexivity|].
  destruct (inbound s (s_cursor r)); cbn; [reflexivity|rewrite Hr; reflexivity].
Qed.

(** The generator run from its start: line 17 raises and nothing is
    opened, or a session is opened and its handle stored, and then line 19
    yields a first message or ends the generator and closes the session. *)
Lemma connect_body_eq config g p :
  connect_body config g p =
  match Ada.enter_live lib (client (agent p)) (model_id (agent p)) config with
  | Some e =>
      (Raise e,
       mkProc (agent p) (sessions p) (<[g := AGenClosed]> (gens p)) (stdout p))
  | None =>
      let s := length (sessions p) in
      let a := mkAgent (client (agent p)) (model_id (agent p)) (Some s) in
      let r := mkSession (client (agent p)) (model_id (agent p)) config in
      match first_turn s with
      | Ok m =>
          (Ok m, mkProc a (sessions p ++ [r true 1 []])
                   (<[g := AGenSuspended s]> (gens p)) (stdout p))
      | Raise e =>
          (Raise e, mkProc a (sessions p ++ [r false 0 []])
                      (<[g := AGenClosed]> (gens p)) (stdout p))
      end
  end.
Proof.
  unfold Ada.connect_body, Ada.agen_body, Ada.async_with, catch, bind,
    Ada.get_self, Ada.live_connect, Ada.set_session, Ada.session_aiter,
    Ada.connect_loop, bind, Ada.session_anext, Ada.live_exit, Ada.set_gen,
    Ada.first_turn, Ada.turn, raise, ret.
  destruct (Ada.enter_live lib _ _ config); cbn; [reflexivity|].
  destruct (Ada.aiter_session lib); cbn.
  { rewrite lookup_last, insert_last. reflexivity. }
  rewrite lookup_last. cbn.
  destruct (Ada.recv_fault lib (length (sessions p)) 0); cbn.
  { rewrite lookup_last, insert_last. reflexivity. }
  destruct (inbound (length (sessions p)) 0); cbn.
  - rewrite insert_last. reflexivity.
  - rewrite lookup_last, insert_last. reflexivity.
Qed.

Lemma anext_created g p :
  gens p !! g = Some AGenCreated →
  anext g p = connect_body Ada.registration_config g p.
Proof. intros Hg. unfold Ada.anext, bind, Ada.get_gen. by rewrite Hg. Qed.

Lemma anext_suspended g s p :
  gens p !! g = Some (AGenSuspended s) → anext g p = connect_resume g s p.
Proof. intros Hg. unfold Ada.anext, bind, Ada.get_gen. by rewrite Hg. Qed.

Lemma anext_closed g p :
  gens p !! g = Some AGenClosed → anext g p = (Raise StopAsyncIteration, p).
Proof. intros Hg. unfold Ada.anext, bind, Ada.get_gen. by rewrite Hg. Qed.

Lemma anext_unknown g p :
  gens p !! g = None → anext g p = (Raise NameError, p).
Proof. intros Hg. unfold Ada.anext, bind, Ada.get_gen. by rewrite Hg. Qed.

Lemma pull_S k g p :
  pull (S k) g p =
  let '(r, p') := anext g p in
  let '(rs, p'') := pull k g p' in
  (r :: rs, p'').
Proof. done. Qed.

(** A finished generator stays finished. *)
Lemma pull_closed k g p :
  gens p !! g = Some AGenClosed →
  pull k g p = (replicate k (Raise StopAsyncIteration), p).
Proof.
  intros Hg. induction k as [|k IH]; [done|].
  rewrite pull_S, (anext_closed _ _ Hg), IH. done.
Qed.

Lemma run_cons o os p : run (o :: os) p = run os (step o p).
Proof. done. Qed.

Lemma run_snoc os o p : run (os ++ [o]) p = step o (run os p).
Proof. unfold Ada.run. by rewrite foldl_app. Qed.

Lemma proc_eta p : mkProc (agent p) (sessions p) (gens p) (stdout p) = p.
Proof. by destruct p. Qed.

Lemma pull_fst k g p :
  fst (pull (S k) g p) = fst (anext g p) :: fst (pull k g (snd (anext g p))).
Proof.
  rewrite pull_S. destruct (anext g p) as [r p']. cbn [fst snd].
  by destruct (pull k g p').
Qed.

Lemma pull_snd k g p :
  snd (pull (S k) g p) = snd (pull k g (snd (anext g p))).
Proof.
  rewrite pull_S. destruct (anext g p) as [r p']. cbn [fst snd].
  by destruct (pull k g p').
Qed.

(** *** The shape of an operation *)

Lemma stepped_refl p : stepped p p.
Proof. rewrite <- (proc_eta p) at 2. apply stepped_gens. Qed.

(** Every operation on the adapter has one of the three shapes. *)
Lemma step_stepped o p : stepped p (step o p).
Proof.
  destruct o as [|g|g|frame_data]; unfold Ada.step, exec.
  - apply stepped_gens.
  - destruct (gens p !! g) as [[|s|]|] eqn:Hg.
    + rewrite (anext_created _ _ Hg), connect_body_eq. cbv zeta.
      destruct (Ada.enter_live lib _ _ _); [apply stepped_gens|].
      destruct (first_turn _); apply stepped_open.
    + rewrite (anext_suspended _ _ _ Hg), connect_resume_eq.
      destruct (sessions p !! s) as [r|] eqn:Hr; [|apply stepped_gens].
      destruct (s_open r) eqn:Ho.
      * destruct (turn s (s_cursor r)).
        -- by apply (stepped_touch p s r), touched_read.
        -- by apply (stepped_touch p s r), touched_closed.
      * by apply (stepped_touch p s r), touched_closed.
    + rewrite (anext_closed _ _ Hg). apply stepped_refl.
    + rewrite (anext_unknown _ _ Hg). apply stepped_refl.
  - unfold Ada.aclose, bind, Ada.get_gen, Ada.live_exit.
    destruct (gens p !! g) as [[|s|]|] eqn:Hg; cbn.
    + apply stepped_gens.
    + destruct (sessions p !! s) as [r|] eqn:Hr; cbn.
      * by apply (stepped_touch p s r), touched_closed.
      * apply stepped_gens.
    + apply stepped_refl.
    + apply stepped_refl.
  - destruct (session (agent p)) as [s|] eqn:Hs.
    + rewrite (send_frame_some _ _ _ Hs). unfold Ada.session_send.
      destruct (sessions p !! s) as [r|] eqn:Hr; [|apply stepped_refl].
      destruct (s_open r) eqn:Ho; [|apply stepped_refl].
      cbn. rewrite <- (proc_eta p) at 3. unfold with_sessions. cbn.
      by apply (stepped_touch p s r), touched_sent.
    + rewrite (send_frame_none _ _ Hs). apply stepped_refl.
Qed.

(** No operation takes the session reference away from the adapter. *)
Lemma step_keeps_session o p :
  session (agent p) ≠ None → session (agent (step o p)) ≠ None.
Proof. intros Hs. by destruct (step_stepped o p). Qed.

Lemma run_keeps_session os : ∀ p,
  session (agent p) ≠ None → session (agent (run os p)) ≠ None.
Proof.
  induction os as [|o os IH]; intros p Hs; [done|].
  rewrite run_cons. apply IH. by apply step_keeps_session.
Qed.

Lemma send_frame_gens frame_data p :
  gens (exec (Ada.send_frame frame_data) p) = gens p.
Proof.
  unfold exec. destruct (session (agent p)) as [s|] eqn:Hs.
  - rewrite (send_frame_some _ _ _ Hs). unfold Ada.session_send.
    destruct (sessions p !! s) as [r|]; [|done]. by destruct (s_open r).
  - by rewrite (send_frame_none _ _ Hs).
Qed.

(** *** Sessions and the generators that hold them *)

Lemma open_from_app l1 : ∀ n l2,
  open_from n (l1 ++ l2) = open_from n l1 ++ open_from (n + length l1) l2.
Proof.
  induction l1 as [|r l1 IH]; intros n l2; cbn.
  - by rewrite Nat.add_0_r.
  - rewrite IH, Nat.add_succ_r. by destruct (s_open r).
Qed.

Lemma elem_of_open_from ss : ∀ n s,
  s ∈ open_from n ss → n ≤ s ∧ ∃ r, ss !! (s - n) = Some r ∧ s_open r = true.
Proof.
  induction ss as [|r ss IH]; intros n s; cbn.
  - by intros ?%elem_of_nil.
  - assert (Hrec : s ∈ open_from (S n) ss →
                   n ≤ s ∧ ∃ r0, (r :: ss) !! (s - n) = Some r0 ∧ s_open r0 = true).
    { intros Hin. destruct (IH _ _ Hin) as (Hle & r0 & Hr0 & Ho).
      split; [lia|]. exists r0.
      by replace (s - n) with (S (s - S n)) by lia. }
    destruct (s_open r) eqn:Ho; [|done].
    intros [->|Hin]%elem_of_cons; [|by apply Hrec].
    split; [done|]. exists r. by rewrite Nat.sub_diag.
Qed.

Lemma open_from_insert_same ss : ∀ n s r r',
  ss !! s = Some r → s_open r' = s_open r →
  open_from n (<[s := r']> ss) = open_from n ss.
Proof.
  induction ss as [|r0 ss IH]; intros n [|s] r r' Hr Ho; cbn in *; simplify_eq.
  - by rewrite Ho.
  - by rewrite (IH _ _ _ _ Hr Ho).
Qed.

Lemma open_from_close ss : ∀ n s r r',
  ss !! s = Some r → s_open r = true → s_open r' = false →
  open_from n ss ≡ₚ (n + s) :: open_from n (<[s := r']> ss).
Proof.
  induction ss as [|r0 ss IH]; intros n [|s] r r' Hr Ho Hc; cbn in *; simplify_eq.
  - by rewrite Ho, Hc, Nat.add_0_r.
  - rewrite Nat.add_succ_r, <- Nat.add_succ_l.
    destruct (s_open r0).
    + rewrite (IH (S n) s r r' Hr Ho Hc). apply Permutation_swap.
    + exact (IH (S n) s r r' Hr Ho Hc).
Qed.

Lemma held_insert_same (gs : list agen) : ∀ g st st',
  gs !! g = Some st → held st' = held st →
  omap held (<[g := st']> gs) = omap held gs.
Proof.
  induction gs as [|st0 gs IH]; intros [|g] st st' Hg Hh; simplify_eq/=.
  - by rewrite Hh.
  - by rewrite (IH _ _ _ Hg Hh).
Qed.

Lemma held_insert_gain (gs : list agen) : ∀ g st st' s,
  gs !! g = Some st → held st = None → held st' = Some s →
  omap held (<[g := st']> gs) ≡ₚ s :: omap held gs.
Proof.
  induction gs as [|st0 gs IH]; intros [|g] st st' s Hg Hn Hs; simplify_eq/=.
  - by rewrite Hn, Hs.
  - destruct (held st0); rewrite (IH _ _ _ _ Hg Hn Hs);
      [apply Permutation_swap|done].
Qed.

Lemma held_insert_lose (gs : list agen) : ∀ g st st' s,
  gs !! g = Some st → held st = Some s → held st' = None →
  omap held gs ≡ₚ s :: omap held (<[g := st']> gs).
Proof.
  induction gs as [|st0 gs IH]; intros [|g] st st' s Hg Hs Hn; simplify_eq/=.
  - by rewrite Hn, Hs.
  - destruct (held st0); rewrite (IH _ _ _ _ Hg Hs Hn);
      [apply Permutation_swap|done].
Qed.

Lemma length_held (gs : list agen) : length (omap held gs) ≤ length gs.
Proof.
  induction gs as [|st gs IH]; cbn; [done|].
  destruct (held st); cbn; lia.
Qed.

(** A suspended generator holds a session that is open. *)
Lemma owned_suspended_open g s p :
  owned p → gens p !! g = Some (AGenSuspended s) →
  ∃ r, sessions p !! s = Some r ∧ s_open r = true.
Proof.
  intros Hown Hg.
  assert (Hin : s ∈ held_handles p).
  { apply list_elem_of_omap. exists (AGenSuspended s).
    split; [by eapply list_elem_of_lookup_2|done]. }
  unfold owned in Hown. rewrite Hown in Hin.
  apply elem_of_open_from in Hin as [_ Hin]. by rewrite Nat.sub_0_r in Hin.
Qed.

(** Closing the session of a suspended generator and finishing it. *)
Lemma owned_close g s r a out p :
  owned p →
  gens p !! g = Some (AGenSuspended s) →
  sessions p !! s = Some r →
  s_open r = true →
  owned (mkProc a
           (<[s := mkSession (s_client r) (s_model r) (s_config r) false
                     (s_cursor r) (s_received r)]> (sessions p))
           (<[g := AGenClosed]> (gens p)) out).
Proof.
  unfold owned, held_handles, open_handles. cbn. intros Hown Hg Hr Ho.
  pose proof (held_insert_lose (gens p) g (AGenSuspended s) AGenClosed s
                Hg eq_refl eq_refl) as H1.
  pose proof (open_from_close (sessions p) 0 s r
                (mkSession (s_client r) (s_model r) (s_config r) false
                   (s_cursor r) (s_received r)) Hr Ho eq_refl) as H2.
  cbn in H2. rewrite Hown, H2 in H1. by apply (inj (cons s)) in H1.
Qed.

(** Changing a session without opening or closing it. *)
Lemma owned_touch s r r' a out p :
  owned p →
  sessions p !! s = Some r →
  s_open r' = s_open r →
  owned (mkProc a (<[s := r']> (sessions p)) (gens p) out).
Proof.
  unfold owned, held_handles, open_handles. cbn. intros Hown Hr Ho.
  by rewrite (open_from_insert_same _ _ _ _ _ Hr Ho).
Qed.

Lemma step_owned o p : owned p → owned (step o p).
Proof.
  intros Hown. destruct o as [|g|g|frame_data]; unfold Ada.step, exec.
  - (* connect() *)
    unfold owned, held_handles, open_handles in *. cbn.
    rewrite omap_app. cbn. by rewrite app_nil_r.
  - (* __anext__ *)
    destruct (gens p !! g) as [[|s|]|] eqn:Hg.
    + rewrite (anext_created _ _ Hg), connect_body_eq. cbv zeta.
      unfold owned, held_handles, open_handles in *.
      destruct (Ada.enter_live lib _ _ _); cbn.
      { by rewrite (held_insert_same (gens p) g AGenCreated AGenClosed Hg eq_refl). }
      destruct (first_turn _); cbn.
      * rewrite open_from_app. cbn.
        rewrite (held_insert_gain (gens p) g AGenCreated
                   (AGenSuspended (length (sessions p))) _ Hg eq_refl eq_refl).
        rewrite Hown. by rewrite Permutation_cons_append.
      * rewrite open_from_app. cbn.
        rewrite (held_insert_same (gens p) g AGenCreated AGenClosed Hg eq_refl).
        by rewrite app_nil_r.
    + destruct (owned_suspended_open _ _ _ Hown Hg) as (r & Hr & Ho).
      rewrite (anext_suspended _ _ _ Hg), connect_resume_eq, Hr, Ho.
      destruct (turn s (s_cursor r)).
      * rewrite (list_insert_id (gens p)) by done.
        by apply (owned_touch s r).
      * by apply owned_close.
    + by rewrite (anext_closed _ _ Hg).
    + by rewrite (anext_unknown _ _ Hg).
  - (* aclose() *)
    unfold Ada.aclose, bind, Ada.get_gen.
    destruct (gens p !! g) as [[|s|]|] eqn:Hg; cbn; try done.
    + unfold owned, held_handles, open_handles in *. cbn.
      by rewrite (held_insert_same (gens p) g AGenCreated AGenClosed Hg eq_refl).
    + destruct (owned_suspended_open _ _ _ Hown Hg) as (r & Hr & Ho).
      unfold Ada.live_exit. rewrite Hr. cbn. by apply owned_close.
  - (* send_frame *)
    destruct (session (agent p)) as [s|] eqn:Hs.
    + rewrite (send_frame_some _ _ _ Hs). unfold Ada.session_send.
      destruct (sessions p !! s) as [r|] eqn:Hr; [|done].
      destruct (s_open r) eqn:Ho; [|done].
      cbn. unfold with_sessions. by apply (owned_touch s r).
    + by rewrite (send_frame_none _ _ Hs).
Qed.

Lemma run_owned os : ∀ p, owned p → owned (run os p).
Proof.
  induction os as [|o os IH]; intros p Hown; [done|].
  rewrite run_cons. apply IH. by apply step_owned.
Qed.

Lemma boot_owned key : owned (Ada.boot key).
Proof. unfold owned, held_handles, open_handles. reflexivity. Qed.

(** Only [connect()] makes a generator. *)
Lemma step_gens_length o p :
  length (gens (step o p)) = length (gens p) + connect_calls [o].
Proof.
  destruct o as [|g|g|frame_data]; unfold Ada.step, exec; cbn [connect_calls].
  - cbn. rewrite length_app. cbn. lia.
  - rewrite Nat.add_0_r. destruct (gens p !! g) as [[|s|]|] eqn:Hg.
    + rewrite (anext_created _ _ Hg), connect_body_eq. cbv zeta.
      destruct (Ada.enter_live lib _ _ _); cbn; [by rewrite length_insert|].
      destruct (first_turn _); cbn; by rewrite length_insert.
    + rewrite (anext_suspended _ _ _ Hg), connect_resume_eq.
      destruct (sessions p !! s) as [r|]; cbn; [|by rewrite length_insert].
      destruct (if s_open r then _ else _); cbn; by rewrite length_insert.
    + by rewrite (anext_closed _ _ Hg).
    + by rewrite (anext_unknown _ _ Hg).
  - rewrite Nat.add_0_r. unfold Ada.aclose, bind, Ada.get_gen, Ada.live_exit.
    destruct (gens p !! g) as [[|s|]|] eqn:Hg; cbn; try done.
    + by rewrite length_insert.
    + destruct (sessions p !! s); cbn; by rewrite length_insert.
  - rewrite Nat.add_0_r. f_equal. apply send_frame_gens.
Qed.

Lemma run_gens_length os : ∀ p,
  length (gens (run os p)) = length (gens p) + connect_calls os.
Proof.
  induction os as [|o os IH]; intros p; [cbn; lia|].
  rewrite run_cons, IH, step_gens_length. destruct o; cbn; lia.
Qed.

(** The open sessions are the sessions held by the suspended generators,
    one for each, so there are never more of them than [connect()] calls. *)
Lemma open_sessions_bounded_by_connect_calls (key : option string) (os : list Ada.op) :
  held_handles (run os (Ada.boot key)) ≡ₚ open_handles (run os (Ada.boot key))
  ∧ length (open_handles (run os (Ada.boot key))) ≤ connect_calls os.
Proof.
  assert (Hown : owned (run os (Ada.boot key))) by apply run_owned, boot_owned.
  split; [done|].
  unfold owned in Hown. rewrite <- Hown. unfold held_handles.
  etrans; [apply length_held|]. by rewrite run_gens_length.
Qed.

(** *** A generator that cannot get past line 19 *)


Lemma first_turn_raises s :
  is_Some (Ada.aiter_session lib) → ∃ e, first_turn s = Raise e.
Proof. intros [e He]. exists e. unfold Ada.first_turn. by rewrite He. Qed.




(** C5 fails on the code.  [connect()] yields no message: when a session
    object cannot be iterated over, the first [__anext__] of a generator
    raises, at line 17 if the library refuses the configuration and at line
    19 otherwise, whatever messages the session has to deliver; every later
    [__anext__] raises [StopAsyncIteration]; the generator is finished and
    the sessions that were open are the ones still open. *)
Theorem connect_raises_before_first_message (k g : nat) (p : Proc) :
  gens p !! g = Some AGenCreated →
  is_Some (Ada.aiter_session lib) →
  (∃ e, fst (pull (S k) g p) = Raise e :: replicate k (Raise StopAsyncIteration))
  ∧ (∀ m, Ok m ∉ fst (pull (S k) g p))
  ∧ gens (snd (pull (S k) g p)) !! g = Some AGenClosed
  ∧ open_handles (snd (pull (S k) g p)) = open_handles p.
Proof.
  intros Hg Hlib.
  assert (Hgl : g < length (gens p)) by (by eapply lookup_lt_Some).
  assert (H : ∃ e q, anext g p = (Raise e, q)
                     ∧ gens q !! g = Some AGenClosed
                     ∧ open_handles q = open_handles p).
  { rewrite (anext_created _ _ Hg), connect_body_eq. cbv zeta.
    destruct (Ada.enter_live lib _ _ _) as [e|].
    - eexists _, _. split; [done|]. split; [by apply list_lookup_insert_eq|done].
    - destruct (first_turn_raises (length (sessions p)) Hlib) as [e ->].
      eexists _, _. split; [done|]. split; [by apply list_lookup_insert_eq|].
      unfold open_handles. cbn. rewrite open_from_app. cbn. by rewrite app_nil_r. }
  destruct H as (e & q & Hq & Hgq & Hoq).
  assert (Hfst : fst (pull (S k) g p)
                 = Raise e :: replicate k (Raise StopAsyncIteration)).
  { by rewrite pull_fst, Hq, (pull_closed _ _ _ Hgq). }
  split; [by exists e|]. split; [|split].
  - intros m. rewrite Hfst. intros [?|Hin]%elem_of_cons; [done|].
    by apply elem_of_replicate in Hin as [? _].
  - by rewrite pull_snd, Hq, (pull_closed _ _ _ Hgq).
  - by rewrite pull_snd, Hq, (pull_closed _ _ _ Hgq).
Qed.


(** *** The handle the first [__anext__] stores *)

Lemma anext_at_rest g s q : at_rest g s q → at_rest g s (snd (anext g q)).
Proof.
  intros [Hs [[Hg Ho]|[Hg Ho]]].
  - assert (Hgl : g < length (gens q)) by (by eapply lookup_lt_Some).
    unfold is_open in Ho.
    destruct (sessions q !! s) as [r|] eqn:Hr; [|done].
    assert (Hsl : s < length (sessions q)) by (by eapply lookup_lt_Some).
    rewrite (anext_suspended _ _ _ Hg), connect_resume_eq, Hr, Ho.
    destruct (turn s (s_cursor r)); (split; [done|]); [left|right];
      unfold is_open; cbn; by rewrite !list_lookup_insert_eq.
  - rewrite (anext_closed _ _ Hg). split; [done|]. by right.
Qed.

Lemma pull_at_rest k : ∀ g s q, at_rest g s q → at_rest g s (snd (pull k g q)).
Proof.
  induction k as [|k IH]; intros g s q Hq; [done|].
  rewrite pull_snd. by apply IH, anext_at_rest.
Qed.

(** C9, as the code has it.  Whether the first [__anext__] stores a handle
    is decided at line 17.  When entering [live.connect] raises, the
    exception leaves the generator, no session is opened and the adapter is
    as it was.  When it returns, the handle of the new session is stored in
    [self.session] before line 19 is reached, whatever line 19 then does,
    so a first message that is yielded comes with the handle in place.  No
    operation sets [self.session] back to [None]: after any number of
    further [__anext__] calls the adapter still holds the handle, also when
    the generator has finished and the session is closed, and [send_frame]
    then calls [send] on the stale handle. *)
Theorem session_handle_kept_after_close (g : nat) (p : Proc) :
  gens p !! g = Some AGenCreated →
  let s := length (sessions p) in
  (∀ e, Ada.enter_live lib (client (agent p)) (model_id (agent p))
          Ada.registration_config = Some e →
        outcome (anext g) p = Raise e
        ∧ agent (exec (anext g) p) = agent p
        ∧ sessions (exec (anext g) p) = sessions p
        ∧ gens (exec (anext g) p) !! g = Some AGenClosed)
  ∧ (Ada.enter_live lib (client (agent p)) (model_id (agent p))
       Ada.registration_config = None →
     session (agent (exec (anext g) p)) = Some s
     ∧ (∀ k frame_data,
          let q := snd (pull (S k) g p) in
          session (agent q) = Some s
          ∧ Ada.send_frame frame_data q
            = Ada.session_send s (mkInput [mkBlob frame_data "image/jpeg"]) q
          ∧ (gens q !! g = Some AGenClosed → is_open s q = false)))
  ∧ (∀ m, outcome (anext g) p = Ok m →
          session (agent (exec (anext g) p)) = Some s
          ∧ is_open s (exec (anext g) p) = true)
  ∧ (∀ os q, session (agent q) ≠ None → session (agent (run os q)) ≠ None).
Proof.
  intros Hg s.
  assert (Hgl : g < length (gens p)) by (by eapply lookup_lt_Some).
  split; [|split; [|split]].
  - intros e He. unfold outcome, exec.
    rewrite (anext_created _ _ Hg), connect_body_eq, He. cbn.
    by rewrite list_lookup_insert_eq.
  - intros Hlive.
    assert (Hrest : at_rest g s (snd (anext g p))).
    { rewrite (anext_created _ _ Hg), connect_body_eq, Hlive. cbv zeta.
      subst s.
      destruct (first_turn _); (split; [done|]); [left|right];
        (split; [by apply list_lookup_insert_eq|]);
        unfold is_open; cbn [snd sessions]; by rewrite lookup_last. }
    split; [by destruct Hrest|].
    intros k frame_data q.
    assert (Hq : at_rest g s q).
    { subst q. rewrite pull_snd. by apply pull_at_rest. }
    destruct Hq as [Hs Hq]. split; [done|]. split; [by apply send_frame_some|].
    intros Hclosed. destruct Hq as [[Hsusp _]|[_ Ho]]; [congruence|done].
  - intros m. unfold outcome, exec, is_open.
    rewrite (anext_created _ _ Hg), connect_body_eq. cbv zeta.
    destruct (Ada.enter_live lib _ _ _); [done|].
    destruct (first_turn _); [|done].
    intros _. cbn [snd agent sessions session]. subst s. by rewrite lookup_last.
  - intros os q. apply run_keeps_session.
Qed.

(** *** The registration configuration *)

Lemma transmitted_forget p : transmitted (forget_config p) = transmitted p.
Proof.
  unfold transmitted, forget_config. cbn.
  rewrite <- list_fmap_compose. apply list_fmap_ext. by intros i r _.
Qed.

Lemma forget_sessions_idem (ss : list Session) :
  forget_session <$> (forget_session <$> ss) = forget_session <$> ss.
Proof. rewrite <- list_fmap_compose. apply list_fmap_ext. by intros i r _. Qed.

(** Two processes that can differ in their sessions only. *)
Ltac forget_sessions := unfold forget_config, with_sessions; cbn; f_equal.

Lemma forget_idem p : forget_config (forget_config p) = forget_config p.
Proof. unfold forget_config. cbn. by rewrite forget_sessions_idem. Qed.

Lemma forget_insert s r r' (ss : list Session) :
  forget_session r' = forget_session r →
  forget_session <$> <[s := r']> (forget_session <$> ss)
  = forget_session <$> <[s := r]> ss.
Proof. intros Hr. by rewrite !list_fmap_insert, forget_sessions_idem, Hr. Qed.

Lemma forget_lookup p s :
  sessions (forget_config p) !! s = forget_session <$> sessions p !! s.
Proof. unfold forget_config. cbn. apply list_lookup_fmap. Qed.

Lemma send_frame_forget frame_data p :
  forget_config (exec (Ada.send_frame frame_data) (forget_config p))
  = forget_config (exec (Ada.send_frame frame_data) p).
Proof.
  unfold exec. destruct (session (agent p)) as [s|] eqn:Hs.
  - rewrite (send_frame_some frame_data p s Hs).
    rewrite (send_frame_some frame_data (forget_config p) s Hs).
    unfold Ada.session_send. rewrite forget_lookup.
    destruct (sessions p !! s) as [r|]; [|apply forget_idem].
    cbn [fmap option_fmap option_map].
    change (s_open (forget_session r)) with (s_open r).
    destruct (s_open r); [|apply forget_idem].
    forget_sessions; by apply forget_insert.
  - rewrite (send_frame_none frame_data p Hs).
    rewrite (send_frame_none frame_data (forget_config p) Hs).
    apply forget_idem.
Qed.


Lemma connect_resume_forget g s p :
  forget_config (exec (connect_resume g s) (forget_config p))
  = forget_config (exec (connect_resume g s) p).
Proof.
  unfold exec. rewrite !connect_resume_eq, forget_lookup.
  destruct (sessions p !! s) as [r|]; cbn [fmap option_fmap option_map].
  - change (s_open (forget_session r)) with (s_open r).
    change (s_cursor (forget_session r)) with (s_cursor r).
    destruct (if s_open r then _ else _);
      forget_sessions; by apply forget_insert.
  - forget_sessions; apply forget_sessions_idem.
Qed.

(** Two configurations that get the same answer from the library lead to
    states that differ in the stored configuration only. *)
Lemma connect_body_forget config config' g p :
  Ada.enter_live lib (client (agent p)) (model_id (agent p)) config
  = Ada.enter_live lib (client (agent p)) (model_id (agent p)) config' →
  forget_config (exec (connect_body config g) p)
  = forget_config (exec (connect_body config' g) p).
Proof.
  intros Hsame. unfold exec. rewrite !connect_body_eq, Hsame. cbv zeta.
  destruct (Ada.enter_live lib _ _ config'); [done|].
  destruct (first_turn _); forget_sessions; by rewrite !fmap_app.
Qed.

Lemma connect_body_forget_state config g p :
  forget_config (exec (connect_body config g) (forget_config p))
  = forget_config (exec (connect_body config g) p).
Proof.
  unfold exec. rewrite !connect_body_eq. cbv zeta.
  change (agent (forget_config p)) with (agent p).
  change (sessions (forget_config p)) with (forget_session <$> sessions p).
  rewrite !length_fmap.
  destruct (Ada.enter_live lib _ _ config).
  { forget_sessions; apply forget_sessions_idem. }
  destruct (first_turn _); forget_sessions;
    by rewrite !fmap_app, forget_sessions_idem.
Qed.

(** One operation sees of the stored configurations only what it stores. *)
Lemma step_forget o p :
  forget_config (step o (forget_config p)) = forget_config (step o p).
Proof.
  destruct o as [|g|g|frame_data]; unfold Ada.step.
  - forget_sessions; apply forget_sessions_idem.
  - unfold exec at 1 2.
    assert (Hgens : gens (forget_config p) = gens p) by done.
    destruct (gens p !! g) as [[|s|]|] eqn:Hg.
    + rewrite (anext_created g p Hg), (anext_created g (forget_config p) Hg).
      apply connect_body_forget_state.
    + rewrite (anext_suspended g s p Hg), (anext_suspended g s (forget_config p) Hg).
      apply connect_resume_forget.
    + rewrite (anext_closed g p Hg), (anext_closed g (forget_config p) Hg).
      apply forget_idem.
    + rewrite (anext_unknown g p Hg), (anext_unknown g (forget_config p) Hg).
      apply forget_idem.
  - unfold exec, Ada.aclose, bind, Ada.get_gen, Ada.live_exit.
    change (gens (forget_config p)) with (gens p).
    destruct (gens p !! g) as [[|s|]|] eqn:Hg.
    + forget_sessions; apply forget_sessions_idem.
    + rewrite forget_lookup.
      destruct (sessions p !! s) as [r|]; cbn [fmap option_fmap option_map].
      * forget_sessions; by apply forget_insert.
      * forget_sessions; apply forget_sessions_idem.
    + apply forget_idem.
    + apply forget_idem.
  - apply send_frame_forget.
Qed.

Lemma run_forget os : ∀ p,
  forget_config (run os (forget_config p)) = forget_config (run os p).
Proof.
  induction os as [|o os IH]; intros p.
  - apply forget_idem.
  - rewrite !run_cons.
    rewrite <- (IH (step o (forget_config p))), step_forget.
    apply IH.
Qed.

(** C6, as the code has it.  The registration configuration is not unused:
    line 17 passes it as the [config] argument of the call that opens the
    session, and the library's answer to it decides what the first
    [__anext__] does.  When the library refuses it, the call raises, no
    session is opened and the adapter is as it was.  When the library
    accepts it, the session is opened with the adapter's client and model
    id and with the configuration
    [{"registration_ids": ["vision", "audio"]}].  Its contents do not reach
    the transmitted data: with any other configuration to which the
    library gives the same answer, every later sequence of operations
    transmits the same inputs to the same sessions. *)
Theorem registration_config_reaches_session (g : nat) (p : Proc) :
  gens p !! g = Some AGenCreated →
  (∀ e, Ada.enter_live lib (client (agent p)) (model_id (agent p))
          [("registration_ids", ["vision"; "audio"])] = Some e →
        outcome (anext g) p = Raise e
        ∧ sessions (exec (anext g) p) = sessions p
        ∧ agent (exec (anext g) p) = agent p)
  ∧ (Ada.enter_live lib (client (agent p)) (model_id (agent p))
       [("registration_ids", ["vision"; "audio"])] = None →
     ∃ r, sessions (exec (anext g) p) !! length (sessions p) = Some r
          ∧ s_config r = [("registration_ids", ["vision"; "audio"])]
          ∧ s_model r = model_id (agent p)
          ∧ s_client r = client (agent p))
  ∧ (∀ config os,
       Ada.enter_live lib (client (agent p)) (model_id (agent p)) config
       = Ada.enter_live lib (client (agent p)) (model_id (agent p))
           [("registration_ids", ["vision"; "audio"])] →
       transmitted (run os (exec (connect_body config g) p))
       = transmitted (run os (exec (anext g) p))).
Proof.
  intros Hg. split; [|split].
  - intros e He. unfold outcome, exec.
    rewrite (anext_created _ _ Hg), connect_body_eq.
    unfold Ada.registration_config. by rewrite He.
  - intros Hlive. unfold exec.
    rewrite (anext_created _ _ Hg), connect_body_eq.
    unfold Ada.registration_config. rewrite Hlive. cbv zeta.
    destruct (first_turn _); cbn [snd sessions];
      rewrite lookup_last; by eexists.
  - intros config os Hsame.
    rewrite <- (transmitted_forget (run _ (exec (connect_body _ _) _))).
    rewrite <- (transmitted_forget (run _ (exec (anext _) _))).
    rewrite <- (run_forget os (exec (connect_body _ _) _)).
    rewrite <- (run_forget os (exec (anext _) _)).
    unfold exec at 2. rewrite (anext_created _ _ Hg).
    fold (exec (connect_body Ada.registration_config g) p).
    by rewrite (connect_body_forget config Ada.registration_config).
Qed.


(** *** What the generator does once it is let through *)

Lemma advanced_0 r : s_open r = true → advanced r 0 0 = r.
Proof.
  intros Ho. destruct r as [c m cf o cu re]. cbn in Ho. subst o.
  unfold advanced. cbn. by rewrite Nat.add_0_r.
Qed.

(** Pulling [k] times on a generator suspended over an open session whose
    receives do not fail. *)
Lemma pull_suspended k : ∀ g s p r,
  (∀ n, Ada.recv_fault lib s n = None) →
  gens p !! g = Some (AGenSuspended s) →
  sessions p !! s = Some r →
  s_open r = true →
  let n := length (feed_from s (s_cursor r) k) in
  pull k g p =
  ((Ok <$> feed_from s (s_cursor r) k) ++ replicate (k - n) (Raise StopAsyncIteration),
   mkProc (agent p) (<[s := advanced r n k]> (sessions p))
     (<[g := resting s n k]> (gens p)) (stdout p)).
Proof.
  induction k as [|k IH]; intros g s p r Hrecv Hg Hr Ho.
  - cbn. rewrite advanced_0 by done. unfold resting. cbn.
    rewrite !list_insert_id by done. by destruct p.
  - assert (Hgl : g < length (gens p)) by (by eapply lookup_lt_Some).
    assert (Hsl : s < length (sessions p)) by (by eapply lookup_lt_Some).
    rewrite pull_S, (anext_suspended _ _ _ Hg), connect_resume_eq, Hr, Ho.
    unfold Ada.turn. rewrite Hrecv. cbn [Ada.feed_from].
    destruct (inbound s (s_cursor r)) as [m|] eqn:Hm.
    + erewrite IH; cbn.
      2: done.
      2: by apply list_lookup_insert_eq.
      2: by apply list_lookup_insert_eq.
      2: done.
      rewrite !list_insert_insert_eq.
      unfold advanced, resting. cbn.
      set (n := length (feed_from s (S (s_cursor r)) k)).
      rewrite (bool_decide_ext (S n = S k) (n = k)) by lia.
      by rewrite Nat.add_succ_r.
    + rewrite pull_closed by (by apply list_lookup_insert_eq).
      unfold advanced, resting. cbn. by rewrite Nat.add_0_r.
Qed.

(** Were the library to accept the configuration, to let the session be
    iterated over and to deliver without fault, [k] calls of [__anext__] on
    a generator that has not been started would give the messages of the
    session it opens, one per call and in the order of arrival, up to the
    point where the session ends, and [StopAsyncIteration] from then on. *)
Lemma connect_streams_once_let_through k g p :
  gens p !! g = Some AGenCreated →
  Ada.enter_live lib (client (agent p)) (model_id (agent p))
    Ada.registration_config = None →
  Ada.aiter_session lib = None →
  (∀ n, Ada.recv_fault lib (length (sessions p)) n = None) →
  fst (pull k g p) =
  (Ok <$> feed_from (length (sessions p)) 0 k)
  ++ replicate (k - length (feed_from (length (sessions p)) 0 k))
       (Raise StopAsyncIteration).
Proof.
  intros Hg Hlive Hiter Hrecv. destruct k as [|k]; [done|].
  assert (Hgl : g < length (gens p)) by (by eapply lookup_lt_Some).
  rewrite pull_S, (anext_created _ _ Hg), connect_body_eq, Hlive.
  unfold Ada.first_turn, Ada.turn. rewrite Hiter, Hrecv.
  cbn [Ada.feed_from]. cbv zeta.
  destruct (inbound (length (sessions p)) 0) as [m|] eqn:Hm.
  - erewrite pull_suspended; cbn.
    2: done.
    2: by apply list_lookup_insert_eq.
    2: by apply lookup_last.
    2: done.
    done.
  - rewrite pull_closed by (by apply list_lookup_insert_eq). done.
Qed.

End Stream.

(** ** The claims at concrete inputs *)


(** Two generators started one after the other when the library accepts
    the configuration: each session is opened and closed again within its
    [__anext__], and the adapter keeps the handle of the second. *)
Example two_generators_not_iterable :
  Ada.run not_iterable chatty
    [Ada.OpConnect; Ada.OpConnect; Ada.OpAnext 0; Ada.OpAnext 1] (Ada.boot (Some "k"))
  = {| agent := mkAgent (mkClient (Some "k") "v1alpha") "gemini-2.0-flash-exp" (Some 1);
       sessions :=
         [mkSession (mkClient (Some "k") "v1alpha") "gemini-2.0-flash-exp"
            [("registration_ids", ["vision"; "audio"])] false 0 [];
          mkSession (mkClient (Some "k") "v1alpha") "gemini-2.0-flash-exp"
            [("registration_ids", ["vision"; "audio"])] false 0 []];
       gens := [AGenClosed; AGenClosed];
       stdout := [] |}.
Proof. reflexivity. Qed.

(** The adapter itself keeps no sessions apart: it is the library that
    ends every generator.  Were sessions iterable and the configuration
    accepted, two generators would hold two open sessions. *)
Example two_generators_lenient :
  open_handles
    (Ada.run lenient chatty
       [Ada.OpConnect; Ada.OpConnect; Ada.OpAnext 0; Ada.OpAnext 1] (Ada.boot None))
  = [0; 1].
Proof. reflexivity. Qed.

Lemma connect_raises_before_first_message_witness :
  ∃ e, fst (Ada.pull genai two_messages 3 0 (exec Ada.connect (Ada.boot (Some "k"))))
       = Raise e :: replicate 2 (Raise StopAsyncIteration).
Proof.
  exact (proj1 (connect_raises_before_first_message genai two_messages 2 0
                  (exec Ada.connect (Ada.boot (Some "k"))) eq_refl
                  (ex_intro _ TypeError eq_refl))).
Defined.

(** The same where the library accepts the configuration: line 19 raises. *)
Example pull_not_iterable :
  fst (Ada.pull not_iterable two_messages 3 0 (exec Ada.connect (Ada.boot (Some "k"))))
  = [Raise TypeError; Raise StopAsyncIteration; Raise StopAsyncIteration].
Proof. reflexivity. Qed.

Lemma session_handle_kept_after_close_witness :
  session (agent (exec (Ada.anext not_iterable two_messages 0)
                    (exec Ada.connect (Ada.boot (Some "k")))))
  = Some 0.
Proof.
  exact (proj1 (proj1 (proj2 (session_handle_kept_after_close not_iterable two_messages 0
                                (exec Ada.connect (Ada.boot (Some "k"))) eq_refl))
                  eq_refl)).
Defined.

(** Line 19 has raised, the generator is finished and the session is
    closed, but the adapter still refers to it: the frame goes to [send]. *)
Example send_frame_on_stale_handle :
  Ada.send_frame jpeg_soi
    (snd (Ada.pull not_iterable two_messages 1 0 (exec Ada.connect (Ada.boot (Some "k")))))
  = (Raise ConnectionClosed,
     snd (Ada.pull not_iterable two_messages 1 0 (exec Ada.connect (Ada.boot (Some "k"))))).
Proof. reflexivity. Qed.

(** C9 as stated fails: with the library as it answers, line 17 raises
    before line 18 is reached; the generator has run and is finished, yet
    the adapter holds no handle and [send_frame] does nothing. *)
Lemma session_not_stored_when_connect_raises :
  outcome (Ada.anext genai two_messages 0) (exec Ada.connect (Ada.boot (Some "k")))
  = Raise ValidationError
  ∧ gens (exec (Ada.anext genai two_messages 0) (exec Ada.connect (Ada.boot (Some "k"))))
      !! 0 = Some AGenClosed
  ∧ session (agent (exec (Ada.anext genai two_messages 0)
                      (exec Ada.connect (Ada.boot (Some "k"))))) = None
  ∧ Ada.send_frame jpeg_soi
      (exec (Ada.anext genai two_messages 0) (exec Ada.connect (Ada.boot (Some "k"))))
    = (Ok tt,
       exec (Ada.anext genai two_messages 0) (exec Ada.connect (Ada.boot (Some "k"))))
  ∧ ¬ (∀ (lib : Ada.Library) (g : nat) (p : Proc),
         gens p !! g = Some AGenCreated →
         session (agent (exec (Ada.anext lib two_messages g) p))
         = Some (length (sessions p))).
Proof.
  repeat split.
  intros H.
  specialize (H genai 0 (exec Ada.connect (Ada.boot (Some "k"))) eq_refl).
  vm_compute in H. discriminate H.
Qed.

Lemma registration_config_reaches_session_witness :
  outcome (Ada.anext genai two_messages 0) (exec Ada.connect (Ada.boot (Some "k")))
  = Raise ValidationError.
Proof.
  exact (proj1 (proj1 (registration_config_reaches_session genai two_messages 0
                         (exec Ada.connect (Ada.boot (Some "k"))) eq_refl)
                  ValidationError eq_refl)).
Defined.

(** C6 as stated fails: the contents of the configuration decide whether a
    session is opened.  With the library as it answers, the empty
    configuration opens a session where the registration configuration
    opens none. *)
Lemma registration_config_is_passed_on :
  sessions (exec (Ada.anext genai two_messages 0) (exec Ada.connect (Ada.boot (Some "k"))))
  = []
  ∧ sessions (exec (Ada.connect_body genai two_messages [] 0)
                (exec Ada.connect (Ada.boot (Some "k"))))
    = [mkSession (mkClient (Some "k") "v1alpha") "gemini-2.0-flash-exp" [] false 0 []]
  ∧ ¬ (∀ config : Config,
         sessions (exec (Ada.connect_body genai two_messages config 0)
                     (exec Ada.connect (Ada.boot (Some "k"))))
         = sessions (exec (Ada.anext genai two_messages 0)
                       (exec Ada.connect (Ada.boot (Some "k"))))
         ∧ transmitted (exec (Ada.send_frame jpeg_soi)
                          (exec (Ada.connect_body genai two_messages config 0)
                             (exec Ada.connect (Ada.boot (Some "k")))))
           = transmitted (exec (Ada.send_frame jpeg_soi)
                            (exec (Ada.anext genai two_messages 0)
                               (exec Ada.connect (Ada.boot (Some "k")))))).
Proof.
  repeat split.
  intros H. destruct (H []) as [H1 _]. vm_compute in H1. discriminate H1.
Qed.

(** ** The gateway over sequences of events *)

(** X1.  Whatever sequence of events the gateway handles, the only part of
    the process that changes is stdout: it grows by one line for each
    [connect] and each [disconnect], in the order of the events, and by
    nothing for [vision_frame] and [voice_input].  The adapter, the AI
    sessions and what they have received are untouched. *)
Theorem gateway_events_only_log {D : Type} (es : list (Server.event D)) (p : Proc) :
  stdout (Server.serve es p) = stdout p ++ concat (Server.log_line <$> es)
  ∧ agent (Server.serve es p) = agent p
  ∧ sessions (Server.serve es p) = sessions p
  ∧ gens (Server.serve es p) = gens p
  ∧ transmitted (Server.serve es p) = transmitted p
  ∧ open_handles (Server.serve es p) = open_handles p.
Proof. by rewrite serve_only_logs. Qed.

Lemma snoc_inj {A} (l : list A) (x y : A) : l ++ [x] = l ++ [y] → x = y.
Proof. intros H%app_inv_head. by injection H. Qed.

Lemma snoc_ne {A} (l : list A) (x : A) : l ++ [x] ≠ l.
Proof.
  intros H%(f_equal length). rewrite length_app in H. cbn in H. lia.
Qed.

(** X2.  The log tells the events apart: if handling [e] and handling [e']
    from the same state leave the same stdout, then [e] and [e'] are both
    [connect] events for the same session id, or both [disconnect] events
    for the same session id, or both silent ([vision_frame],
    [voice_input]). *)
Theorem log_tells_events_apart {D : Type} (e e' : Server.event D) (p : Proc) :
  stdout (exec (Server.dispatch e) p) = stdout (exec (Server.dispatch e') p) →
  same_trace e e'.
Proof.
  destruct e as [sid env|sid|sid d|sid d], e' as [sid' env'|sid'|sid' d'|sid' d'];
    cbn; intros H; try done.
  all: try (by apply snoc_ne in H).
  all: try (by symmetry in H; apply snoc_ne in H).
  all: apply snoc_inj in H; by simplify_eq.
Qed.

Lemma log_tells_events_apart_witness :
  same_trace (D := bytes) (Server.EvConnect "abc" []) (Server.EvConnect "abc" []).
Proof.
  exact (log_tells_events_apart (Server.EvConnect "abc" []) (Server.EvConnect "abc" [])
           (Ada.boot None) eq_refl).
Defined.

(** ** The adapter over sequences of operations *)

Section Coverage.

Variable lib : Ada.Library.
Context {Message : Type}.
Variable inbound : handle → nat → option Message.

Local Abbreviation step := (Ada.step lib inbound).
Local Abbreviation run := (Ada.run lib inbound).

(** *** The handle the adapter holds *)

Lemma latest_snoc (ss : list Session) r : latest (ss ++ [r]) = Some (length ss).
Proof. unfold latest. rewrite length_app. cbn. by rewrite Nat.add_1_r. Qed.

Lemma stepped_latest p q :
  stepped p q →
  session (agent p) = latest (sessions p) →
  session (agent q) = latest (sessions q).
Proof.
  intros [gs|s r r' gs Hr Ht|o c gs] Hp; cbn.
  - done.
  - unfold latest. by rewrite length_insert.
  - by rewrite latest_snoc.
Qed.

(** X3.  On a newly built adapter, [self.session] is [None] until the
    first session is opened, and from then on it is the handle of the
    session opened last: after any sequence of operations the adapter
    refers to the newest session, whether or not that one is still open and
    whether or not older ones are. *)
Theorem adapter_holds_latest_session (key : option string) (os : list Ada.op) :
  session (agent (run os (Ada.boot key)))
  = latest (sessions (run os (Ada.boot key))).
Proof.
  induction os as [|o os IH] using rev_ind; [done|].
  rewrite run_snoc. eapply stepped_latest; [apply step_stepped|done].
Qed.

(** *** What every session was opened with *)

Lemma touched_opened_with r r' :
  touched r r' →
  s_client r' = s_client r ∧ s_model r' = s_model r ∧ s_config r' = s_config r.
Proof. by intros [Ho| |input Ho]. Qed.

Lemma stepped_opened_by_agent p q :
  stepped p q → opened_by_agent p → opened_by_agent q.
Proof.
  unfold opened_by_agent.
  intros [gs|s r r' gs Hr Ht|o c gs] Hp; cbn.
  - done.
  - apply Forall_insert; [done|].
    destruct (touched_opened_with _ _ Ht) as (-> & -> & ->).
    by apply (Forall_lookup_1 _ _ _ _ Hp Hr).
  - apply Forall_app. split; [done|]. by apply Forall_singleton.
Qed.

Lemma stepped_agent_fixed p q :
  stepped p q →
  client (agent q) = client (agent p) ∧ model_id (agent q) = model_id (agent p).
Proof. by intros [gs|s r r' gs Hr Ht|o c gs]. Qed.

(** X4.  When [__init__] returns, that is when the library builds a
    client for the key, the adapter has that client, for API version
    [v1alpha], the model id [gemini-2.0-flash-exp] and no session; every
    session it ever opens is opened with that client, that model id and the
    registration configuration; no operation changes the adapter's client
    or model id, and no session changes what it was opened with. *)
Theorem sessions_opened_with_fixed_parameters
    (key : option string) (a : AdaAgent) (os : list Ada.op) :
  Ada.init lib key = Ok a →
  Ada.new_client lib key = None
  ∧ a = mkAgent (mkClient key "v1alpha") "gemini-2.0-flash-exp" None
  ∧ client (agent (run os (mkProc a [] [] []))) = mkClient key "v1alpha"
  ∧ model_id (agent (run os (mkProc a [] [] []))) = "gemini-2.0-flash-exp"
  ∧ Forall (λ r, s_client r = mkClient key "v1alpha"
                 ∧ s_model r = "gemini-2.0-flash-exp"
                 ∧ s_config r = [("registration_ids", ["vision"; "audio"])])
      (sessions (run os (mkProc a [] [] []))).
Proof.
  unfold Ada.init. destruct (Ada.new_client lib key) as [e|]; [done|].
  intros [= <-]. split; [done|]. split; [done|].
  change (mkProc (Ada.built key) [] [] []) with (Ada.boot key).
  induction os as [|o os IH] using rev_ind.
  - repeat split. apply Forall_nil_2.
  - destruct IH as (Hc & Hm & Hss).
    rewrite run_snoc.
    pose proof (step_stepped lib inbound o (run os (Ada.boot key))) as Hstep.
    destruct (stepped_agent_fixed _ _ Hstep) as [Hc' Hm'].
    rewrite Hc', Hm'. split; [done|]. split; [done|].
    assert (Hq : opened_by_agent (step o (run os (Ada.boot key)))).
    { apply (stepped_opened_by_agent _ _ Hstep).
      unfold opened_by_agent. by rewrite Hc, Hm. }
    unfold opened_by_agent in Hq. by rewrite Hc', Hm', Hc, Hm in Hq.
Qed.

(** *** Sessions only move forward *)

Lemma evolves_refl r : evolves r r.
Proof. by repeat split. Qed.

Lemma evolves_trans r1 r2 r3 : evolves r1 r2 → evolves r2 r3 → evolves r1 r3.
Proof.
  intros (Hc & Hm & Hf & Hn & Hp & Ho) (Hc' & Hm' & Hf' & Hn' & Hp' & Ho').
  unfold evolves. rewrite Hc', Hm', Hf'.
  repeat split; try done; [lia|by etrans|auto].
Qed.

Lemma touched_evolves r r' : touched r r' → evolves r r'.
Proof.
  intros [Ho| |input Ho]; unfold evolves; cbn; repeat split; try done; try lia.
  - congruence.
  - by apply prefix_app_r.
  - congruence.
Qed.

Lemma stepped_evolves p q s r :
  stepped p q →
  sessions p !! s = Some r →
  ∃ r', sessions q !! s = Some r' ∧ evolves r r'.
Proof.
  intros [gs|s0 r0 r0' gs Hr0 Ht|o c gs] Hr; cbn.
  - exists r. split; [done|apply evolves_refl].
  - destruct (decide (s0 = s)) as [->|Hne].
    + exists r0'. split.
      * apply list_lookup_insert_eq. by eapply lookup_lt_Some.
      * simplify_eq. by apply touched_evolves.
    + exists r. rewrite list_lookup_insert_ne by done.
      split; [done|apply evolves_refl].
  - exists r. split; [by apply lookup_app_l_Some|apply evolves_refl].
Qed.

(** X5.  No operation on the adapter removes a session, reopens a closed
    one, moves a session's inbound position back, or loses or reorders what
    a session has received: after any sequence of operations a session
    that existed before is still there, with the arguments it was opened
    with, a position at least as far, the inputs it had received as the
    head of those it has received, and closed if it was closed. *)
Theorem sessions_only_move_forward (os : list Ada.op) (p : Proc) (s : handle) (r : Session) :
  sessions p !! s = Some r →
  ∃ r', sessions (run os p) !! s = Some r' ∧ evolves r r'.
Proof.
  intros Hr. induction os as [|o os IH] using rev_ind.
  - exists r. split; [done|apply evolves_refl].
  - destruct IH as (r1 & Hr1 & He1). rewrite run_snoc.
    destruct (stepped_evolves _ _ s r1 (step_stepped lib inbound o (run os p)) Hr1)
      as (r2 & Hr2 & He2).
    exists r2. split; [done|]. by eapply evolves_trans.
Qed.

(** *** Frames before, during and after a session *)

Lemma step_idle o p :
  is_anext o = false →
  sessions p = [] →
  sessions (step o p) = [] ∧ agent (step o p) = agent p ∧ stdout (step o p) = stdout p.
Proof.
  intros Ho Hss. destruct o as [|g|g|frame_data]; [|done| |]; unfold Ada.step, exec.
  - done.
  - unfold Ada.aclose, bind, Ada.get_gen, Ada.live_exit.
    destruct (gens p !! g) as [[|s|]|]; cbn; try done.
    rewrite Hss. by cbn.
  - destruct (session (agent p)) as [s|] eqn:Hs.
    + rewrite (send_frame_some _ _ _ Hs). unfold Ada.session_send.
      by rewrite Hss.
    + by rewrite (send_frame_none _ _ Hs).
Qed.

Lemma run_idle os : ∀ p,
  Forall (λ o, is_anext o = false) os →
  sessions p = [] →
  sessions (run os p) = [] ∧ agent (run os p) = agent p ∧ stdout (run os p) = stdout p.
Proof.
  induction os as [|o os IH]; intros p Hos Hss; [done|].
  apply Forall_cons in Hos as [Ho Hos]. rewrite run_cons.
  destruct (step_idle o p Ho Hss) as (Hss' & Ha & Hout).
  destruct (IH (step o p) Hos Hss') as (? & ? & ?).
  split; [done|]. split; congruence.
Qed.

(** X6.  Calling [connect()] does not connect.  On a newly built adapter,
    as long as no generator has been advanced, whatever else is done
    ([connect()] calls, [aclose], [send_frame]), no session has been opened,
    [self.session] is still [None], and a further [send_frame] returns
    normally and transmits nothing: the frame is dropped. *)
Theorem no_session_before_first_anext
    (key : option string) (os : list Ada.op) (frame_data : bytes) :
  Forall (λ o, is_anext o = false) os →
  sessions (run os (Ada.boot key)) = []
  ∧ session (agent (run os (Ada.boot key))) = None
  ∧ outcome (Ada.send_frame frame_data) (run os (Ada.boot key)) = Ok tt
  ∧ exec (Ada.send_frame frame_data) (run os (Ada.boot key)) = run os (Ada.boot key).
Proof.
  intros Hos.
  destruct (run_idle os (Ada.boot key) Hos eq_refl) as (Hss & Ha & _).
  assert (Hs : session (agent (run os (Ada.boot key))) = None) by (by rewrite Ha).
  split; [done|]. split; [done|].
  unfold outcome, exec. by rewrite (send_frame_none _ _ Hs).
Qed.

(** X7.  Frames sent one after the other on a held, open session arrive
    in the order they were sent, one input of one [image/jpeg] chunk for
    each frame, none merged, dropped or altered; the session stays open and
    no other session receives anything. *)
Theorem frames_arrive_in_order (frames : list bytes) : ∀ (p : Proc) (s : handle) (r : Session),
  session (agent p) = Some s →
  sessions p !! s = Some r →
  s_open r = true →
  (∃ r', sessions (run (Ada.OpSendFrame <$> frames) p) !! s = Some r'
         ∧ s_open r' = true
         ∧ s_received r'
           = s_received r ++ ((λ fd, mkInput [mkBlob fd "image/jpeg"]) <$> frames))
  ∧ chunks_received s (run (Ada.OpSendFrame <$> frames) p)
    = chunks_received s p ++ ((λ fd, mkBlob fd "image/jpeg") <$> frames)
  ∧ (∀ s', s' ≠ s →
           sessions (run (Ada.OpSendFrame <$> frames) p) !! s' = sessions p !! s').
Proof.
  induction frames as [|fd frames IH]; intros p s r Hs Hr Ho.
  - cbn. unfold chunks_received. rewrite Hr, !app_nil_r.
    split; [by exists r|done].
  - assert (Hlt : s < length (sessions p)) by (by eapply lookup_lt_Some).
    rewrite fmap_cons, run_cons.
    change (step (Ada.OpSendFrame fd) p) with (exec (Ada.send_frame fd) p).
    unfold exec. rewrite (send_frame_some _ _ _ Hs). unfold Ada.session_send.
    rewrite Hr, Ho. cbn [snd].
    set (r1 := mkSession (s_client r) (s_model r) (s_config r) true (s_cursor r)
                 (s_received r ++ [mkInput [mkBlob fd "image/jpeg"]])).
    set (p1 := with_sessions (<[s := r1]> (sessions p)) p).
    assert (Hr1 : sessions p1 !! s = Some r1) by (by apply list_lookup_insert_eq).
    destruct (IH p1 s r1 Hs Hr1 eq_refl) as ((r' & Hr' & Ho' & Hrec) & Hch & Hoth).
    split; [|split].
    + exists r'. split; [done|]. split; [done|].
      rewrite Hrec. cbn. by rewrite <- app_assoc.
    + rewrite Hch. unfold chunks_received. rewrite Hr1, Hr. cbn.
      rewrite fmap_app, concat_app. cbn. by rewrite <- app_assoc.
    + intros s' Hne. rewrite (Hoth s' Hne). cbn.
      by apply list_lookup_insert_ne.
Qed.

Lemma fmap_insert_same {A B} (f : A → B) (l : list A) i x y :
  l !! i = Some x → f y = f x → f <$> <[i := y]> l = f <$> l.
Proof.
  intros Hi Hf. rewrite list_fmap_insert, Hf.
  apply list_insert_id. by rewrite list_lookup_fmap, Hi.
Qed.

(** X8.  [send_frame] does nothing but deliver: in every case it leaves
    the generators and stdout as they were, and it opens no session, closes
    none, and takes no inbound message from any. *)
Theorem send_frame_only_delivers (frame_data : bytes) (p : Proc) :
  gens (exec (Ada.send_frame frame_data) p) = gens p
  ∧ stdout (exec (Ada.send_frame frame_data) p) = stdout p
  ∧ length (sessions (exec (Ada.send_frame frame_data) p)) = length (sessions p)
  ∧ s_open <$> sessions (exec (Ada.send_frame frame_data) p) = s_open <$> sessions p
  ∧ s_cursor <$> sessions (exec (Ada.send_frame frame_data) p)
    = s_cursor <$> sessions p
  ∧ open_handles (exec (Ada.send_frame frame_data) p) = open_handles p.
Proof.
  unfold exec. destruct (session (agent p)) as [s|] eqn:Hs.
  - rewrite (send_frame_some _ _ _ Hs). unfold Ada.session_send.
    destruct (sessions p !! s) as [r|] eqn:Hr; [|done].
    destruct (s_open r) eqn:Ho; [|done]. cbn.
    unfold open_handles. cbn.
    rewrite length_insert.
    rewrite (fmap_insert_same s_open _ _ r) by done.
    rewrite (fmap_insert_same s_cursor _ _ r) by done.
    by rewrite (open_from_insert_same _ _ _ r) by done.
  - by rewrite (send_frame_none _ _ Hs).
Qed.

(** *** Releasing sessions *)

(** X9.  Closing a generator that is suspended at its [yield] releases the
    session it opened, and only that one: in any state a newly built
    adapter can reach, the session was open, [aclose] closes it and leaves
    every other session as open or closed as it was, the generator is
    finished and its next [__anext__] raises [StopAsyncIteration], and what
    the sessions have received is kept. *)
Theorem aclose_releases_own_session
    (key : option string) (os : list Ada.op) (g : nat) (s : handle) :
  gens (run os (Ada.boot key)) !! g = Some (AGenSuspended s) →
  is_open s (run os (Ada.boot key)) = true
  ∧ is_open s (exec (Ada.aclose g) (run os (Ada.boot key))) = false
  ∧ open_handles (run os (Ada.boot key))
    ≡ₚ s :: open_handles (exec (Ada.aclose g) (run os (Ada.boot key)))
  ∧ gens (exec (Ada.aclose g) (run os (Ada.boot key))) !! g = Some AGenClosed
  ∧ outcome (Ada.anext lib inbound g) (exec (Ada.aclose g) (run os (Ada.boot key)))
    = Raise StopAsyncIteration
  ∧ transmitted (exec (Ada.aclose g) (run os (Ada.boot key)))
    = transmitted (run os (Ada.boot key)).
Proof.
  set (p := run os (Ada.boot key)). intros Hg.
  assert (Hown : owned p).
  { apply run_owned, boot_owned. }
  destruct (owned_suspended_open g s p Hown Hg) as (r & Hr & Ho).
  assert (Hgl : g < length (gens p)) by (by eapply lookup_lt_Some).
  assert (Hsl : s < length (sessions p)) by (by eapply lookup_lt_Some).
  assert (Hq : exec (Ada.aclose g) p
               = mkProc (agent p)
                   (<[s := mkSession (s_client r) (s_model r) (s_config r) false
                             (s_cursor r) (s_received r)]> (sessions p))
                   (<[g := AGenClosed]> (gens p)) (stdout p)).
  { unfold exec, Ada.aclose, bind, Ada.get_gen, Ada.live_exit.
    rewrite Hg. cbn. by rewrite Hr. }
  rewrite Hq. clear Hq. repeat split.
  - unfold is_open. by rewrite Hr.
  - unfold is_open. cbn [sessions]. by rewrite list_lookup_insert_eq.
  - exact (open_from_close (sessions p) 0 s r
             (mkSession (s_client r) (s_model r) (s_config r) false
                (s_cursor r) (s_received r)) Hr Ho eq_refl).
  - cbn [gens]. by apply list_lookup_insert_eq.
  - unfold outcome. rewrite anext_closed; [done|].
    cbn [gens]. by apply list_lookup_insert_eq.
  - unfold transmitted. cbn [sessions].
    by apply (fmap_insert_same s_received _ _ r).
Qed.

(** X10.  No session outlives its generator: in any state a newly built
    adapter can reach in which no generator is suspended at its [yield]
    (each one is unstarted, exhausted or closed), no AI session is open. *)
Theorem no_open_session_without_suspended_generator
    (key : option string) (os : list Ada.op) :
  held_handles (run os (Ada.boot key)) = [] →
  open_handles (run os (Ada.boot key)) = [].
Proof.
  intros Hheld.
  assert (Hown : owned (run os (Ada.boot key))).
  { apply run_owned, boot_owned. }
  unfold owned in Hown. rewrite Hheld in Hown.
  by apply Permutation_nil_l in Hown.
Qed.

(** *** The gateway and the adapter side by side *)

Lemma step_with_stdout out o p :
  step o (with_stdout out p) = with_stdout out (step o p).
Proof.
  destruct o as [|g|g|frame_data]; unfold Ada.step, exec.
  - done.
  - destruct (gens p !! g) as [[|s|]|] eqn:Hg.
    + rewrite (anext_created lib inbound g p Hg).
      rewrite (anext_created lib inbound g (with_stdout out p) Hg).
      rewrite !connect_body_eq. cbv zeta. unfold with_stdout. cbn.
      destruct (Ada.enter_live lib _ _ _); [done|].
      by destruct (Ada.first_turn lib inbound _).
    + rewrite (anext_suspended lib inbound g s p Hg).
      rewrite (anext_suspended lib inbound g s (with_stdout out p) Hg).
      rewrite !connect_resume_eq. unfold with_stdout. cbn.
      destruct (sessions p !! s) as [r|]; [|done].
      by destruct (if s_open r then _ else _).
    + rewrite (anext_closed lib inbound g p Hg).
      by rewrite (anext_closed lib inbound g (with_stdout out p) Hg).
    + rewrite (anext_unknown lib inbound g p Hg).
      by rewrite (anext_unknown lib inbound g (with_stdout out p) Hg).
  - unfold Ada.aclose, bind, Ada.get_gen, Ada.live_exit. cbn.
    destruct (gens p !! g) as [[|s|]|]; cbn; try done.
    by destruct (sessions p !! s).
  - unfold Ada.send_frame, bind, Ada.get_self, Ada.session_send. cbn.
    destruct (session (agent p)) as [s|]; cbn; [|done].
    destruct (sessions p !! s) as [r|]; [|done]. by destruct (s_open r).
Qed.

Lemma run_with_stdout out os : ∀ p,
  run os (with_stdout out p) = with_stdout out (run os p).
Proof.
  induction os as [|o os IH]; intros p; [done|].
  by rewrite !run_cons, step_with_stdout, IH.
Qed.

Lemma run_stdout os p : stdout (run os p) = stdout p.
Proof.
  induction os as [|o os IH] using rev_ind; [done|].
  rewrite run_snoc, <- IH. by destruct (step_stepped lib inbound o (run os p)).
Qed.

(** X11.  The gateway and the adapter do not meet.  The adapter never
    writes to stdout, and handling any gateway events before any adapter
    operations gives the same process as handling them after: no event
    reaches the adapter and no adapter operation depends on an event. *)
Theorem gateway_and_adapter_are_independent
    {D : Type} (es : list (Server.event D)) (os : list Ada.op) (p : Proc) :
  stdout (run os p) = stdout p
  ∧ run os (Server.serve es p) = Server.serve es (run os p)
  ∧ transmitted (run os (Server.serve es p)) = transmitted (run os p).
Proof.
  split; [apply run_stdout|].
  assert (H : run os (Server.serve es p) = Server.serve es (run os p)).
  { by rewrite !serve_only_logs, run_with_stdout, run_stdout. }
  split; [done|]. rewrite H. by rewrite serve_only_logs.
Qed.

End Coverage.

(** ** The added properties at concrete inputs *)

Lemma sessions_only_move_forward_witness :
  ∃ r', sessions (Ada.run lenient two_messages
                    [Ada.OpSendFrame jpeg_soi; Ada.OpAnext 0; Ada.OpAnext 0] connected)
          !! 0 = Some r'
        ∧ evolves (mkSession (mkClient (Some "k") "v1alpha") "gemini-2.0-flash-exp"
                     [("registration_ids", ["vision"; "audio"])] true 1 []) r'.
Proof.
  exact (sessions_only_move_forward lenient two_messages
           [Ada.OpSendFrame jpeg_soi; Ada.OpAnext 0; Ada.OpAnext 0] connected 0 _ eq_refl).
Defined.

Lemma no_session_before_first_anext_witness :
  sessions (Ada.run lenient two_messages
              [Ada.OpConnect; Ada.OpSendFrame jpeg_soi; Ada.OpAclose 0] (Ada.boot None)) = []
  ∧ outcome (Ada.send_frame jpeg_soi)
      (Ada.run lenient two_messages
         [Ada.OpConnect; Ada.OpSendFrame jpeg_soi; Ada.OpAclose 0] (Ada.boot None)) = Ok tt.
Proof.
  pose proof (no_session_before_first_anext lenient two_messages None
                [Ada.OpConnect; Ada.OpSendFrame jpeg_soi; Ada.OpAclose 0] jpeg_soi)
    as H.
  destruct H as (H1 & _ & H3 & _).
  - repeat constructor.
  - exact (conj H1 H3).
Defined.

Lemma frames_arrive_in_order_witness :
  chunks_received 0
    (Ada.run lenient two_messages (Ada.OpSendFrame <$> [jpeg_soi; []; [x00]]) connected)
  = [mkBlob jpeg_soi "image/jpeg"; mkBlob [] "image/jpeg"; mkBlob [x00] "image/jpeg"].
Proof.
  exact (proj1 (proj2 (frames_arrive_in_order lenient two_messages [jpeg_soi; []; [x00]]
                         connected 0 _ eq_refl eq_refl eq_refl))).
Defined.

Lemma aclose_releases_own_session_witness :
  is_open 0 (Ada.run lenient chatty [Ada.OpConnect; Ada.OpAnext 0] (Ada.boot None)) = true
  ∧ is_open 0 (exec (Ada.aclose 0)
                 (Ada.run lenient chatty [Ada.OpConnect; Ada.OpAnext 0] (Ada.boot None))) = false.
Proof.
  pose proof (aclose_releases_own_session lenient chatty None
                [Ada.OpConnect; Ada.OpAnext 0] 0 0 eq_refl) as (H1 & H2 & _).
  exact (conj H1 H2).
Defined.

Lemma no_open_session_without_suspended_generator_witness :
  open_handles
    (Ada.run lenient two_messages
       [Ada.OpConnect; Ada.OpAnext 0; Ada.OpAnext 0; Ada.OpAnext 0;
        Ada.OpConnect; Ada.OpAnext 1; Ada.OpAclose 1] (Ada.boot None)) = [].
Proof.
  exact (no_open_session_without_suspended_generator lenient two_messages None
           [Ada.OpConnect; Ada.OpAnext 0; Ada.OpAnext 0; Ada.OpAnext 0;
            Ada.OpConnect; Ada.OpAnext 1; Ada.OpAclose 1] eq_refl).
Defined.

Lemma sessions_opened_with_fixed_parameters_witness :
  client (agent (Ada.run genai chatty [Ada.OpConnect; Ada.OpAnext 0]
                   (mkProc (Ada.built (Some "k")) [] [] [])))
  = mkClient (Some "k") "v1alpha".
Proof.
  exact (proj1 (proj2 (proj2 (sessions_opened_with_fixed_parameters genai chatty
                                (Some "k") (Ada.built (Some "k"))
                                [Ada.OpConnect; Ada.OpAnext 0] eq_refl)))).
Defined.

(** With no key in the environment [__init__] raises and there is no
    adapter; so it does for the empty key. *)
Example init_without_key :
  Ada.init genai None = Raise ValueError ∧ Ada.init genai (Some "") = Raise ValueError.
Proof. done. Qed.
